(** * Kule: a REST gateway over MongoDB collections

    A shallow embedding of [kule/kule.py].  The class [Kule] wraps a bottle
    application: every handler resolves the collection through the
    whitelist, talks to the store and hands a Python value to [jsonify].

    The embedding threads the mutable state (the database behind
    [self.connection] and bottle's [response.status]) through a small
    state-and-exception monad.  [abort(code)] and uncaught Python exceptions
    are two distinct abnormal results; bottle turns both into error
    responses at the request boundary. *)

From stdpp Require Import gmap strings list fin_maps.
From Stdlib Require Import ZArith NArith Ascii String.

Local Open Scope string_scope.
Local Open Scope Z_scope.

(** ** Python values *)

(** The values that travel between the request, the handlers and the store:
    what [json.loads] produces, plus the store's own [ObjectId].  A Python
    [dict] is a finite map with string keys; equal dicts are equal maps.
    Numbers are integers: floating point values are not represented. *)
#[warnings="-register-all"]
Inductive value :=
| VNull
| VBool (b : bool)
| VInt (z : Z)
| VStr (s : string)
| VOid (o : string)
| VArr (l : list value)
| VObj (m : gmap string value).

Abbreviation document := (gmap string value).

(** Equality as the store compares values: same type, same content. *)
Fixpoint value_eqb (v1 v2 : value) {struct v1} : bool :=
  match v1, v2 with
  | VNull, VNull => true
  | VBool a, VBool b => Bool.eqb a b
  | VInt a, VInt b => Z.eqb a b
  | VStr a, VStr b => String.eqb a b
  | VOid a, VOid b => String.eqb a b
  | VArr l1, VArr l2 =>
      (fix go (l1 l2 : list value) : bool :=
         match l1, l2 with
         | [], [] => true
         | x :: l1', y :: l2' => value_eqb x y && go l1' l2'
         | _, _ => false
         end) l1 l2
  | VObj m1, VObj m2 =>
      bool_decide (dom m1 = dom m2) &&
      map_fold (fun k x acc =>
                  acc && match m2 !! k with
                         | Some y => value_eqb x y
                         | None => false
                         end) true m1
  | _, _ => false
  end.

(** Python truthiness, as used by [x or abort(404)] and [if query]. *)
Definition truthy (v : value) : bool :=
  match v with
  | VNull => false
  | VBool b => b
  | VInt z => negb (Z.eqb z 0)
  | VStr s => negb (String.eqb s "")
  | VOid _ => true
  | VArr l => negb (Nat.eqb (List.length l) 0)
  | VObj m => negb (bool_decide (m = ∅))
  end.

(** ** bson.ObjectId *)

Module Hex.

Definition digit (n : N) : ascii :=
  if (n <? 10)%N then ascii_of_N (48 + n) else ascii_of_N (87 + n).

Definition nibble (c : ascii) : option N :=
  let n := N_of_ascii c in
  if ((48 <=? n) && (n <=? 57))%N then Some (n - 48)%N
  else if ((97 <=? n) && (n <=? 102))%N then Some (n - 87)%N
  else if ((65 <=? n) && (n <=? 70))%N then Some (n - 55)%N
  else None.

(** [binascii.hexlify]: two lower-case digits per byte. *)
Fixpoint hexlify (s : string) : string :=
  match s with
  | EmptyString => EmptyString
  | String c s' =>
      let n := N_of_ascii c in
      String (digit (n / 16)) (String (digit (n mod 16)) (hexlify s'))
  end.

(** [binascii.unhexlify]: fails on an odd length or a non-hex digit. *)
Fixpoint unhexlify (s : string) : option string :=
  match s with
  | EmptyString => Some EmptyString
  | String a (String b s') =>
      match nibble a, nibble b, unhexlify s' with
      | Some h, Some l, Some r => Some (String (ascii_of_N (16 * h + l)) r)
      | _, _, _ => None
      end
  | String _ EmptyString => None
  end.

End Hex.

(** [ObjectId(pk)]: a 12-byte string is taken as the raw id, a 24-character
    string must be hexadecimal; anything else raises [InvalidId] ([None]). *)
Definition ObjectId (pk : string) : option string :=
  if Nat.eqb (String.length pk) 12 then Some pk
  else if Nat.eqb (String.length pk) 24 then Hex.unhexlify pk
  else None.

(** [str(oid)]. *)
Definition str_oid (o : string) : string := Hex.hexlify o.

(** [k] bytes, big-endian, of [n]. *)
Fixpoint bytes_be (k : nat) (n : N) : string :=
  match k with
  | O => EmptyString
  | S k' => bytes_be k' (n / 256) ++ String (ascii_of_N (n mod 256)) EmptyString
  end.

(** [ObjectId()]: the generator hands out successive 12-byte ids. *)
Definition new_oid (seq : N) : string := bytes_be 12 seq.

(** ** Abnormal termination and the handler monad *)

(** Python exceptions a handler can let escape. *)
Inductive exn :=
| InvalidId        (* bson.errors.InvalidId *)
| InvalidName      (* pymongo.errors.InvalidName *)
| ValueError
| TypeError
| OverflowError
| InvalidDocument  (* bson.errors.InvalidDocument *)
| InvalidOperation (* pymongo.errors.InvalidOperation *).

(** How a handler ends: it returns, it calls [abort(code)] (bottle's
    [HTTPError]), or an exception escapes. *)
Inductive result (A : Type) :=
| Return (a : A)
| Abort (code : Z)
| Raise (e : exn).
Arguments Return {A} a.
Arguments Abort {A} code.
Arguments Raise {A} e.

(** The state a request can observe and change: the collections of the
    database behind [self.connection], the [ObjectId] generator and the
    status of bottle's [response]. *)
Record world := World {
  database : gmap string (list document);
  oid_seq : N;
  response_status : Z
}.

Definition M (A : Type) : Type := world -> result A * world.

Definition ret {A} (a : A) : M A := fun w => (Return a, w).

Definition bind {A B} (m : M A) (k : A -> M B) : M B :=
  fun w =>
    match m w with
    | (Return a, w') => k a w'
    | (Abort c, w') => (Abort c, w')
    | (Raise e, w') => (Raise e, w')
    end.

(** [bottle.abort]. *)
Definition abort {A} (code : Z) : M A := fun w => (Abort code, w).

Definition raise {A} (e : exn) : M A := fun w => (Raise e, w).

(** [response.status = code]. *)
Definition set_status (code : Z) : M unit :=
  fun w => (Return tt, World (database w) (oid_seq w) code).

Definition get_world : M world := fun w => (Return w, w).

Declare Scope kule_scope.
Delimit Scope kule_scope with kule.
Notation "x <- m ;; k" := (bind m (fun x => k))
  (at level 100, m at next level, right associativity) : kule_scope.
Notation "m ;;; k" := (bind m (fun _ => k))
  (at level 100, right associativity) : kule_scope.
Local Open Scope kule_scope.

(** ** The request *)

(** [query] holds the pairs of the query string in order ([request.query],
    alias [request.GET]); [json] is bottle's [request.json]: the decoded
    body, or [None] ([VNull]) when the request carries no JSON body. *)
Record request := Request {
  query : list (string * string);
  json : value
}.

(** [MultiDict.get]: the last value given for the key. *)
Fixpoint multidict_get (key : string) (l : list (string * string)) : option string :=
  match l with
  | [] => None
  | (k, v) :: l' =>
      match multidict_get key l' with
      | Some v' => Some v'
      | None => if String.eqb k key then Some v else None
      end
  end.

(** [request.query.<name>]: attribute access on a [FormsDict] gives the
    empty string for a missing key. *)
Definition formsdict_attr (key : string) (l : list (string * string)) : string :=
  match multidict_get key l with
  | Some v => v
  | None => ""
  end.

(** ** helpers *)

Definition digit_value (c : ascii) : option Z :=
  let n := N_of_ascii c in
  if ((48 <=? n) && (n <=? 57))%N then Some (Z.of_N (n - 48)) else None.

Fixpoint digits_value (acc : Z) (s : string) : option Z :=
  match s with
  | EmptyString => Some acc
  | String c s' =>
      match digit_value c with
      | Some d => digits_value (10 * acc + d) s'
      | None => None
      end
  end.

(** [int(s)] on a decimal numeral with an optional sign. *)
Definition int_of_string (s : string) : option Z :=
  match s with
  | EmptyString => None
  | String "-" (String c s') => Z.opp <$> digits_value 0 (String c s')
  | String "+" (String c s') => digits_value 0 (String c s')
  | _ => digits_value 0 s
  end.

(** Modelled from the spec: [helpers.int_or_default] is not part of the
    sources at hand.  It parses the parameter as an integer; a non-numeric
    or missing (empty) value falls back to the default, and it never
    raises. *)
Definition int_or_default (s : string) (default : Z) : Z :=
  match int_of_string s with
  | Some z => z
  | None => default
  end.

(** What a handler gives back to bottle. *)
Inductive body :=
| Empty                 (* the handler returned [None] *)
| Json (v : value)      (* the JSON text of [v] *)
| ErrorPage (code : Z)  (* bottle's own error page *).

(** Modelled from the spec: [helpers.jsonify] is not part of the sources at
    hand.  It serialises a value, store ids included, to the JSON body of
    the response; a JSON text is represented by the value it denotes. *)
Definition jsonify (v : value) : body := Json v.

(** ** Library functions

    Functions of the Python libraries whose rules the handlers rely on but
    never look into.  The development is parametric in them. *)
Class Library := {
  (** [json.loads]; [None] when it raises [ValueError]. *)
  json_loads : string -> option value;
  (** Does a stored document satisfy a filter document (the store's query
      language)? *)
  matches : document -> document -> bool;
  (** Collection names the driver accepts in [connection[name]]. *)
  valid_name : string -> bool;
  (** Documents the driver accepts for storage (BSON-encodable, no
      reserved characters in keys). *)
  storable : document -> bool;
  (** The server's update operators: the document that an update document
      other than a replacement or a plain [$set] leaves in place of a
      stored one (the stored one itself when the update is refused). *)
  modify : document -> document -> document
}.

(** ** A reference library

    One concrete choice of the library functions, used to run the handlers
    on examples: a JSON decoder for texts without fractional numbers and
    without [\u] escapes, filters that compare fields for equality, and the
    driver's rules for names and keys. *)

Definition is_space (c : ascii) : bool :=
  let n := N_of_ascii c in
  ((n =? 32) || (n =? 9) || (n =? 10) || (n =? 13))%N.

Fixpoint skip_space (s : string) : string :=
  match s with
  | EmptyString => EmptyString
  | String c s' => if is_space c then skip_space s' else s
  end.

(** The rest of [s] after the literal [lit]. *)
Fixpoint expect (lit s : string) : option string :=
  match lit, s with
  | EmptyString, _ => Some s
  | String a lit', String b s' => if Ascii.eqb a b then expect lit' s' else None
  | String _ _, EmptyString => None
  end.

Definition unescape (c : ascii) : option ascii :=
  let n := N_of_ascii c in
  if (n =? 34)%N then Some c            (* quote *)
  else if (n =? 92)%N then Some c       (* backslash *)
  else if (n =? 47)%N then Some c       (* slash *)
  else if (n =? 98)%N then Some (ascii_of_N 8)
  else if (n =? 102)%N then Some (ascii_of_N 12)
  else if (n =? 110)%N then Some (ascii_of_N 10)
  else if (n =? 114)%N then Some (ascii_of_N 13)
  else if (n =? 116)%N then Some (ascii_of_N 9)
  else None.

(** A string literal, read after its opening quote. *)
Fixpoint decode_string (s : string) : option (string * string) :=
  match s with
  | EmptyString => None
  | String c s' =>
      if (N_of_ascii c =? 34)%N then Some (EmptyString, s')
      else if (N_of_ascii c =? 92)%N then
        match s' with
        | String e s'' =>
            match unescape e, decode_string s'' with
            | Some c', Some (r, rest) => Some (String c' r, rest)
            | _, _ => None
            end
        | EmptyString => None
        end
      else if (N_of_ascii c <? 32)%N then None
      else
        match decode_string s' with
        | Some (r, rest) => Some (String c r, rest)
        | None => None
        end
  end.

Fixpoint decode_digits (acc : Z) (s : string) : Z * string :=
  match s with
  | EmptyString => (acc, s)
  | String c s' =>
      match digit_value c with
      | Some d => decode_digits (10 * acc + d) s'
      | None => (acc, s)
      end
  end.

(** An integer literal; a fraction or an exponent after it is refused. *)
Definition decode_int (s : string) : option (Z * string) :=
  let unsigned (s : string) :=
    match s with
    | EmptyString => None
    | String c s' =>
        match digit_value c with
        | Some 0 => Some (0, s')
        | Some d => Some (decode_digits d s')
        | None => None
        end
    end in
  let signed :=
    match s with
    | String "-" s' =>
        match unsigned s' with
        | Some (z, rest) => Some (- z, rest)
        | None => None
        end
    | _ => unsigned s
    end in
  match signed with
  | Some (z, String c rest) =>
      if Ascii.eqb c "." || Ascii.eqb c "e" || Ascii.eqb c "E" then None
      else Some (z, String c rest)
  | r => r
  end.

Fixpoint decode_value (fuel : nat) (s : string) : option (value * string) :=
  match fuel with
  | O => None
  | S fuel' =>
      match skip_space s with
      | EmptyString => None
      | String c s' =>
          if Ascii.eqb c "n" then (fun r => (VNull, r)) <$> expect "ull" s'
          else if Ascii.eqb c "t" then (fun r => (VBool true, r)) <$> expect "rue" s'
          else if Ascii.eqb c "f" then (fun r => (VBool false, r)) <$> expect "alse" s'
          else if (N_of_ascii c =? 34)%N then
            match decode_string s' with
            | Some (str, r) => Some (VStr str, r)
            | None => None
            end
          else if Ascii.eqb c "[" then
            match skip_space s' with
            | String "]" r => Some (VArr [], r)
            | _ =>
                match decode_elements fuel' s' with
                | Some (l, r) => Some (VArr l, r)
                | None => None
                end
            end
          else if Ascii.eqb c "{" then
            match skip_space s' with
            | String "}" r => Some (VObj ∅, r)
            | _ =>
                match decode_members fuel' s' ∅ with
                | Some (m, r) => Some (VObj m, r)
                | None => None
                end
            end
          else
            match decode_int (String c s') with
            | Some (z, r) => Some (VInt z, r)
            | None => None
            end
      end
  end
with decode_elements (fuel : nat) (s : string) : option (list value * string) :=
  match fuel with
  | O => None
  | S fuel' =>
      match decode_value fuel' s with
      | Some (v, r) =>
          match skip_space r with
          | String "," r' =>
              match decode_elements fuel' r' with
              | Some (l, r'') => Some (v :: l, r'')
              | None => None
              end
          | String "]" r' => Some ([v], r')
          | _ => None
          end
      | None => None
      end
  end
with decode_members (fuel : nat) (s : string) (acc : document)
    : option (document * string) :=
  match fuel with
  | O => None
  | S fuel' =>
      match skip_space s with
      | String c s' =>
          if (N_of_ascii c =? 34)%N then
            match decode_string s' with
            | Some (key, r) =>
                match skip_space r with
                | String ":" r' =>
                    match decode_value fuel' r' with
                    | Some (v, r'') =>
                        match skip_space r'' with
                        | String "," r3 => decode_members fuel' r3 (<[key := v]> acc)
                        | String "}" r3 => Some (<[key := v]> acc, r3)
                        | _ => None
                        end
                    | None => None
                    end
                | _ => None
                end
            | None => None
            end
          else None
      | EmptyString => None
      end
  end.

(** The whole text must be one value. *)
Definition decode_json (s : string) : option value :=
  match decode_value (2 * String.length s + 2) s with
  | Some (v, r) =>
      match skip_space r with
      | EmptyString => Some v
      | _ => None
      end
  | None => None
  end.

(** A filter of [field: value] pairs selects the documents that carry those
    values. *)
Definition fields_match (q d : document) : bool :=
  forallb (fun kv => match d !! fst kv with
                     | Some x => value_eqb (snd kv) x
                     | None => false
                     end) (map_to_list q).

Fixpoint contains (c : ascii) (s : string) : bool :=
  match s with
  | EmptyString => false
  | String a s' => Ascii.eqb a c || contains c s'
  end.

(** Collection names: not empty, no [$], no NUL, no dot at either end. *)
Definition collection_name_ok (s : string) : bool :=
  negb (String.eqb s "") && negb (contains "$" s) && negb (contains "000" s) &&
  negb (String.prefix "." s) && negb (String.prefix "." (String.rev s)).

Definition key_ok (k : string) : bool :=
  negb (String.prefix "$" k) && negb (contains "." k) && negb (contains "000" k).

(** Keys are checked in the document and in everything nested in it. *)
Fixpoint keys_ok (v : value) : bool :=
  match v with
  | VArr l => forallb keys_ok l
  | VObj m => map_fold (fun k x acc => acc && key_ok k && keys_ok x) true m
  | _ => true
  end.

Definition reference : Library := {|
  json_loads := decode_json;
  matches := fields_match;
  valid_name := collection_name_ok;
  storable := fun d => keys_ok (VObj d);
  modify := fun _ d => d
|}.

Section Kule.

Context `{Library}.

(** ** The store: a pymongo database *)

(** A collection handle is the collection's name; its documents live in the
    database and are kept in insertion order. *)
Record Collection := { name : string }.

Definition documents (w : world) (c : Collection) : list document :=
  default [] (database w !! name c).

Definition store_documents (c : Collection) (docs : list document) : M unit :=
  fun w => (Return tt,
            World (<[name c := docs]> (database w)) (oid_seq w) (response_status w)).

(** [connection[name]]: the driver refuses some names with [InvalidName]. *)
Definition getitem (collection : string) : M Collection :=
  if valid_name collection then ret {| name := collection |}
  else raise InvalidName.

(** The document's [_id] is [i]. *)
Definition has_id (i : value) (d : document) : bool :=
  match d !! "_id" with
  | Some j => value_eqb i j
  | None => false
  end.

(** [collection.find_one({"_id": oid})]. *)
Definition find_one (c : Collection) (oid : string) : M (option document) :=
  fun w => (Return (head (List.filter (has_id (VOid oid)) (documents w c))), w).

(** A cursor: the query is sent when the cursor is iterated. *)
Record Cursor := {
  cursor_collection : Collection;
  cursor_spec : document;
  cursor_skip : Z;
  cursor_limit : Z
}.

(** [collection.find(spec)]: [None] stands for the empty filter, anything
    that is not a dict is a [TypeError]. *)
Definition find (c : Collection) (spec : value) : M Cursor :=
  match spec with
  | VNull => ret {| cursor_collection := c; cursor_spec := ∅;
                    cursor_skip := 0; cursor_limit := 0 |}
  | VObj q => ret {| cursor_collection := c; cursor_spec := q;
                     cursor_skip := 0; cursor_limit := 0 |}
  | _ => raise TypeError
  end.

Definition matching (w : world) (cur : Cursor) : list document :=
  List.filter (matches (cursor_spec cur)) (documents w (cursor_collection cur)).

(** [cursor.count()]: every document the filter selects, whatever the
    cursor's skip and limit. *)
Definition count (cur : Cursor) : M Z :=
  fun w => (Return (Z.of_nat (List.length (matching w cur))), w).

(** [cursor.skip(n)]: a negative [n] is rejected. *)
Definition skip (cur : Cursor) (n : Z) : M Cursor :=
  if n <? 0 then raise ValueError
  else ret {| cursor_collection := cursor_collection cur;
              cursor_spec := cursor_spec cur;
              cursor_skip := n; cursor_limit := cursor_limit cur |}.

(** [cursor.limit(n)]. *)
Definition limit (cur : Cursor) (n : Z) : M Cursor :=
  ret {| cursor_collection := cursor_collection cur;
         cursor_spec := cursor_spec cur;
         cursor_skip := cursor_skip cur; cursor_limit := n |}.

Definition int32 (n : Z) : bool := (- 2147483648 <=? n) && (n <=? 2147483647).

(** The documents a limit lets through: [0] is no limit, a negative limit
    counts as its absolute value. *)
Definition limited (n : Z) (docs : list document) : list document :=
  if n =? 0 then docs else take (Z.abs_nat n) docs.

(** Iterating the cursor: skip and limit travel as 32-bit integers. *)
Definition fetch (cur : Cursor) : M (list document) :=
  if int32 (cursor_skip cur) && int32 (cursor_limit cur) then
    fun w => (Return (limited (cursor_limit cur)
                        (drop (Z.to_nat (cursor_skip cur)) (matching w cur))), w)
  else raise OverflowError.

(** The driver gives a document without [_id] a fresh [ObjectId] before it
    sends it. *)
Definition assign_id (d : document) : M document :=
  fun w =>
    match d !! "_id" with
    | Some _ => (Return d, w)
    | None =>
        (Return (<["_id" := VOid (new_oid (oid_seq w))]> d),
         World (database w) (N.succ (oid_seq w)) (response_status w))
    end.

Fixpoint assign_ids (ds : list document) : M (list document) :=
  match ds with
  | [] => ret []
  | d :: ds' => d' <- assign_id d;; r <- assign_ids ds';; ret (d' :: r)
  end.

Definition id_of (d : document) : value := default VNull (d !! "_id").

(** The server stores the documents in order and stops at the first one
    whose [_id] is already taken; the write is unacknowledged, so nothing is
    reported. *)
Fixpoint store_all (ds : list document) (docs : list document) : list document :=
  match ds with
  | [] => docs
  | d :: ds' =>
      if existsb (has_id (id_of d)) docs then docs
      else store_all ds' (docs ++ [d])
  end.

Definition as_document (v : value) : option document :=
  match v with
  | VObj d => Some d
  | _ => None
  end.

Fixpoint as_documents (l : list value) : option (list document) :=
  match l with
  | [] => Some []
  | v :: l' =>
      match as_document v, as_documents l' with
      | Some d, Some ds => Some (d :: ds)
      | _, _ => None
      end
  end.

Definition insert_documents (c : Collection) (ds : list document) : M (list value) :=
  ds' <- assign_ids ds;;
  if forallb storable ds' then
    w <- get_world;;
    store_documents c (store_all ds' (documents w c));;;
    ret (map id_of ds')
  else raise InvalidDocument.

(** [collection.insert(doc_or_docs)]: gives the [_id] of the document, or
    the list of the [_id]s of a list of documents. *)
Definition insert (c : Collection) (doc_or_docs : value) : M value :=
  match doc_or_docs with
  | VObj d => ids <- insert_documents c [d];; ret (default VNull (head ids))
  | VArr [] => raise InvalidOperation
  | VArr l =>
      match as_documents l with
      | Some ds => ids <- insert_documents c ds;; ret (VArr ids)
      | None => raise TypeError
      end
  | _ => raise TypeError
  end.

(** [collection.remove({"_id": oid})]. *)
Definition remove (c : Collection) (oid : string) : M unit :=
  fun w =>
    (Return tt,
     World (alter (List.filter (fun d => negb (has_id (VOid oid) d)))
                  (name c) (database w))
           (oid_seq w) (response_status w)).

Definition operator_key (k : string) : bool := String.prefix "$" k.

Fixpoint dotted (k : string) : bool :=
  match k with
  | EmptyString => false
  | String c k' => Ascii.eqb c "." || dotted k'
  end.

(** A field name that [$set] takes as it is: no path, no operator, not the
    [_id]. *)
Definition plain_key (k : string) : bool :=
  negb (operator_key k) && negb (dotted k) && negb (String.eqb k "_id").

Definition plain (p : document) : bool :=
  forallb (fun kv => plain_key (fst kv)) (map_to_list p).

(** An update document without operators replaces the stored document. *)
Definition replacement (u : document) : bool :=
  forallb (fun kv => negb (operator_key (fst kv))) (map_to_list u).

(** What one update leaves in place of the stored document [d].  A
    replacement keeps the [_id] and is refused when it names another one;
    [{"$set": fields}] with plain field names overwrites exactly those
    fields. *)
Definition updated (u d : document) : document :=
  if replacement u then
    match u !! "_id" with
    | Some i => if has_id i d then u else d
    | None =>
        match d !! "_id" with
        | Some i => <["_id" := i]> u
        | None => u
        end
    end
  else
    match u !! "$set" with
    | Some (VObj fields) =>
        if bool_decide (dom u = {["$set"]}) && plain fields then fields ∪ d
        else modify u d
    | _ => modify u d
    end.

Fixpoint update_first (f : document -> document) (i : value)
    (docs : list document) : list document :=
  match docs with
  | [] => []
  | d :: docs' =>
      if has_id i d then f d :: docs' else d :: update_first f i docs'
  end.

(** [collection.update({"_id": oid}, document)]: no upsert, one document
    at most.  The driver wants a dict and checks the keys of a
    replacement. *)
Definition update (c : Collection) (oid : string) (document : value) : M unit :=
  match document with
  | VObj u =>
      if replacement u && negb (storable u) then raise InvalidDocument
      else
        fun w =>
          (Return tt,
           World (alter (update_first (updated u) (VOid oid))
                        (name c) (database w))
                 (oid_seq w) (response_status w))
  | _ => raise TypeError
  end.

(** ** The class Kule *)

(** An instance: the whitelist given to [__init__] ([None] or a list of
    names) and the methods a subclass defines, under their attribute names.
    Of such a method the development uses its name and, when it serves as a
    bundler, the value it returns for a document. *)
Record Kule := {
  collections : option (list string);
  subclass : gmap string (document -> value)
}.

(** The methods of the class itself. *)
Definition Kule_methods : list string :=
  ["connect"; "get_collection"; "get_detail"; "put_detail"; "patch_detail";
   "delete_detail"; "post_list"; "get_list"; "get_query"; "get_bundler";
   "build_bundle"; "get_error_handler"; "dispatch_views"; "after_request";
   "get_bottle_app"; "not_implemented"; "error"; "run"].

(** [getattr(self, attr, ...)] finds a method of the subclass or of the
    class.  The instance attributes ([connection], [collections], [app])
    are left out: no name that the class looks up can be one of them. *)
Definition hasattr (self : Kule) (attr : string) : bool :=
  bool_decide (is_Some (subclass self !! attr)) ||
  existsb (String.eqb attr) Kule_methods.

(** [self.collections and collection not in self.collections]. *)
Definition denied (self : Kule) (collection : string) : bool :=
  match collections self with
  | None => false
  | Some [] => false
  | Some l => negb (existsb (String.eqb collection) l)
  end.

(** Returns the given collection if it permitted *)
Definition get_collection (self : Kule) (collection : string) : M Collection :=
  if denied self collection then abort 403
  else getitem collection.

(** Dummy bundler *)
Definition build_bundle (data : document) : value := VObj data.

(** [self.build_bundle]. *)
Definition self_build_bundle (self : Kule) : document -> value :=
  match subclass self !! "build_bundle" with
  | Some f => f
  | None => build_bundle
  end.

(** Returns a bundler function for collection.  ([getattr] finds the name
    in the subclass or not at all: the class has no method of that name,
    see [bundle_name_not_own].) *)
Definition get_bundler (self : Kule) (collection : Collection) : document -> value :=
  let method_name := "build_" ++ name collection ++ "_bundle" in
  match subclass self !! method_name with
  | Some f => f
  | None => self_build_bundle self
  end.

(** [ObjectId(pk)] inside a handler. *)
Definition to_ObjectId (pk : string) : M string :=
  match ObjectId pk with
  | Some oid => ret oid
  | None => raise InvalidId
  end.

(** Returns a single document. *)
Definition get_detail (self : Kule) (collection pk : string) : M body :=
  cursor <- get_collection self collection;;
  oid <- to_ObjectId pk;;
  found <- find_one cursor oid;;
  data <- match found with
          | Some d => if truthy (VObj d) then ret d else abort 404
          | None => abort 404
          end;;
  ret (jsonify (get_bundler self cursor data)).

(** Updates whole document. *)
Definition put_detail (self : Kule) (collection pk : string) (req : request) : M body :=
  collection <- get_collection self collection;;
  oid <- to_ObjectId pk;;
  update collection oid (json req);;;
  set_status 202;;;
  ret (jsonify (json req)).

(** Updates specific parts of the document. *)
Definition patch_detail (self : Kule) (collection pk : string) (req : request) : M body :=
  collection <- get_collection self collection;;
  oid <- to_ObjectId pk;;
  update collection oid (VObj {["$set" := json req]});;;
  set_status 202;;;
  get_detail self (name collection) pk.

(** Deletes a single document *)
Definition delete_detail (self : Kule) (collection pk : string) : M body :=
  collection <- get_collection self collection;;
  oid <- to_ObjectId pk;;
  remove collection oid;;;
  set_status 204;;;
  ret Empty.

(** Creates new document *)
Definition post_list (self : Kule) (collection : string) (req : request) : M body :=
  collection <- get_collection self collection;;
  inserted <- insert collection (json req);;
  set_status 201;;;
  ret (jsonify (VObj {["_id" := inserted]})).

(** Loads the given json-encoded query. *)
Definition get_query (req : request) : M value :=
  match multidict_get "query" (query req) with
  | Some q =>
      if negb (String.eqb q "") then
        match json_loads q with
        | Some v => ret v
        | None => raise ValueError
        end
      else ret (VObj ∅)
  | None => ret (VObj ∅)
  end.

(** Returns paginated objects. *)
Definition get_list (self : Kule) (collection : string) (req : request) : M body :=
  collection <- get_collection self collection;;
  let limit_ := int_or_default (formsdict_attr "limit" (query req)) 20 in
  let offset := int_or_default (formsdict_attr "offset" (query req)) 0 in
  query <- get_query req;;
  cursor <- find collection query;;
  total_count <- count cursor;;
  let meta : document :=
    {[ "limit" := VInt limit_; "offset" := VInt offset;
       "total_count" := VInt total_count ]} in
  objects <- skip cursor offset;;
  objects <- limit objects limit_;;
  objects <- fetch objects;;
  let objects := map (get_bundler self collection) objects in
  ret (jsonify (VObj {[ "meta" := VObj meta; "objects" := VArr objects ]})).

(** Returns not implemented status. *)
Definition not_implemented : M body := abort 501.

(** ** Routing *)

Inductive verb := GET | POST | PUT | PATCH | DELETE.

(** The method names [dispatch_views] iterates over. *)
Definition lower (method : verb) : string :=
  match method with
  | GET => "get"
  | POST => "post"
  | PUT => "put"
  | PATCH => "patch"
  | DELETE => "delete"
  end.

(** One [self.app.route(path, method=method)(view)]; the view is a bound
    method of the instance, named by its attribute. *)
Record route := Route {
  route_path : string;
  route_method : verb;
  route_view : string
}.

(** [getattr(self, attr, self.<default>)] as a bound method. *)
Definition getattr (self : Kule) (attr default : string) : string :=
  if hasattr self attr then attr else default.

(** The magical views of one method and one collection. *)
Definition magical_views (self : Kule) (method : verb) (collection : string) : list route :=
  let list_view := lower method ++ "_" ++ collection ++ "_list" in
  let detail_view := lower method ++ "_" ++ collection ++ "_detail" in
  ((if hasattr self list_view
    then [Route ("/" ++ collection) method list_view] else []) ++
   (if hasattr self detail_view
    then [Route ("/" ++ collection ++ "/:id") method detail_view] else []))%list.

(** Routes bottle app. Also determines the magical views. *)
Definition dispatch_views (self : Kule) : list route :=
  flat_map
    (fun method =>
       ([Route "/:collection" method
           (getattr self (lower method ++ "_list") "not_implemented");
         Route "/:collection/:pk" method
           (getattr self (lower method ++ "_detail") "not_implemented")] ++
        flat_map (magical_views self method) (default [] (collections self)))%list)
    [GET; POST; PUT; PATCH; DELETE].

(** Calling a view with the arguments of the URL.  [None]: the view is a
    subclass's own code, or not a view of the class. *)
Definition call_view (self : Kule) (view : string) (collection pk : string)
    (req : request) : option (M body) :=
  match subclass self !! view with
  | Some _ => None
  | None =>
      if String.eqb view "get_list" then Some (get_list self collection req)
      else if String.eqb view "post_list" then Some (post_list self collection req)
      else if String.eqb view "get_detail" then Some (get_detail self collection pk)
      else if String.eqb view "put_detail" then Some (put_detail self collection pk req)
      else if String.eqb view "patch_detail" then Some (patch_detail self collection pk req)
      else if String.eqb view "delete_detail" then Some (delete_detail self collection pk)
      else if String.eqb view "not_implemented" then Some not_implemented
      else None
  end.

Inductive cardinality := Listing | Detail.

(** The view bound to the generic path of a method and a cardinality. *)
Definition generic_view (self : Kule) (method : verb) (card : cardinality) : string :=
  match card with
  | Listing => getattr self (lower method ++ "_list") "not_implemented"
  | Detail => getattr self (lower method ++ "_detail") "not_implemented"
  end.

Definition generic_path (card : cardinality) : string :=
  match card with
  | Listing => "/:collection"
  | Detail => "/:collection/:pk"
  end.

(** A request on a generic path. *)
Definition serve (self : Kule) (method : verb) (card : cardinality)
    (collection pk : string) (req : request) : option (M body) :=
  call_view self (generic_view self method card) collection pk req.

(** ** Errors and the response *)

(** Customized errors *)
Definition get_error_handler (code : Z) : option string :=
  if code =? 500 then Some "Internal Server Error."
  else if code =? 404 then Some "Document Not Found."
  else if code =? 501 then Some "Not Implemented."
  else if code =? 405 then Some "Method Not Allowed."
  else if code =? 403 then Some "Forbidden."
  else if code =? 400 then Some "Bad request."
  else None.

(** Returns the error response. *)
Definition error (message : string) (status_code : Z) : body :=
  jsonify (VObj {[ "error" := VInt status_code; "message" := VStr message ]}).

Record response := Response {
  status : Z;
  content : body
}.

(** bottle hands an [HTTPError] to the handler registered for its status. *)
Definition error_response (code : Z) : response :=
  match get_error_handler code with
  | Some message => Response code (error message code)
  | None => Response code (ErrorPage code)
  end.

(** What bottle answers: the returned body under [response.status], the
    mapped error for an [abort], and Internal Server Error for an exception
    that escapes the handler. *)
Definition answer (r : result body * world) : response :=
  match r with
  | (Return b, w) => Response (response_status w) b
  | (Abort code, _) => error_response code
  | (Raise _, _) => error_response 500
  end.

(** One request: the response starts out with status 200. *)
Definition handle (h : M body) (w : world) : response * world :=
  let r := h (World (database w) (oid_seq w) 200) in
  (answer r, snd r).

(** The (method, cardinality) pairs for which the class defines a generic
    handler. *)
Definition own_handler (method : verb) (card : cardinality) : bool :=
  existsb (String.eqb (lower method ++
                         match card with Listing => "_list" | Detail => "_detail" end))
          Kule_methods.

(** The filter a list request asks for, when it has one: what [get_query]
    decodes and [find] accepts. *)
Definition requested_filter (req : request) : option document :=
  match multidict_get "query" (query req) with
  | None => Some ∅
  | Some text =>
      if String.eqb text "" then Some ∅
      else
        match json_loads text with
        | Some VNull => Some ∅
        | Some (VObj q) => Some q
        | _ => None
        end
  end.

(** The naming convention of the views. *)
Definition suffix (card : cardinality) : string :=
  match card with
  | Listing => "_list"
  | Detail => "_detail"
  end.

(** The path of a magical view. *)
Definition magical_path (collection : string) (card : cardinality) : string :=
  match card with
  | Listing => "/" ++ collection
  | Detail => "/" ++ collection ++ "/:id"
  end.

(** [s.split(",")]. *)
Fixpoint split_commas (s : string) : list string :=
  match s with
  | EmptyString => [EmptyString]
  | String c s' =>
      if Ascii.eqb c "," then EmptyString :: split_commas s'
      else
        match split_commas s' with
        | piece :: pieces => String c piece :: pieces
        | [] => [String c EmptyString]
        end
  end.

(** The whitelist [main] hands to [Kule] for the option [--collections]:
    [(options.collections or "").split(",")]. *)
Definition main_collections (option : option string) : list string :=
  split_commas (default "" option).

(** The instance of a subclass that also defines the method [attr]. *)
Definition define_method (self : Kule) (attr : string) (f : document -> value) : Kule :=
  {| collections := collections self;
     subclass := <[attr := f]> (subclass self) |}.

End Kule.

(** ** Start-up *)

(** The options [main] reads.  A missing option is [None]. *)
Record options := Options {
  address : option string;
  mongodb_host : option string;
  mongodb_port : option string;
  database_name : option string;
  collections_option : option string
}.

(** The port [main] hands to [run]: the default, or the text after the last
    colon of [--bind], as it is. *)
Inductive port :=
| Port (n : Z)
| PortText (s : string).

(** [s.rsplit(":", 1)] for an [s] with a colon: the text before the last
    colon and the text after it; [None] when [s] has no colon. *)
Fixpoint rsplit_colon (s : string) : option (string * string) :=
  match s with
  | EmptyString => None
  | String c s' =>
      match rsplit_colon s' with
      | Some (host, p) => Some (String c host, p)
      | None => if Ascii.eqb c ":" then Some (EmptyString, s') else None
      end
  end.

(** [x or default] for an optional string. *)
Definition or_default (x : option string) (d : string) : string :=
  match x with
  | Some s => if String.eqb s "" then d else s
  | None => d
  end.

(** How [main] ends: with [parser.error], or by running the application of
    a [Kule] instance on a host and a port. *)
Inductive started :=
| ParserError (message : string)
| Run (host : string) (p : port) (kule : Kule).

Definition main (o : options) : started :=
  let collections := main_collections (collections_option o) in
  if String.eqb (or_default (database_name o) "") "" then
    ParserError "MongoDB database not given."
  else
    let host := or_default (address o) "localhost" in
    let bound :=
      match rsplit_colon host with
      | Some (h, p) => (h, PortText p)
      | None => (host, Port 8000)
      end in
    Run (fst bound) (snd bound)
        {| collections := Some collections; subclass := ∅ |}.

(** ** Behaviours of a handler *)

(** Where a handler leaves [response.status] when it returns, and the codes
    it may abort with. *)
Definition ends {A} (m : M A) (after : Z -> Z) (codes : list Z) : Prop :=
  forall w,
    match m w with
    | (Return _, w') => response_status w' = after (response_status w)
    | (Abort code, _) => In code codes
    | (Raise _, _) => True
    end.

(** A step that neither aborts nor sets the status. *)
Abbreviation steady m := (ends m (fun z => z) []).

(** The handler changes nothing. *)
Definition reads {A} (m : M A) : Prop := forall w, snd (m w) = w.

(** The handler keeps the documents of every collection but [c]. *)
Definition confined {A} (c : string) (m : M A) : Prop :=
  forall w c', c' <> c -> database (snd (m w)) !! c' = database w !! c'.

(** The statuses a request on a generic path can be answered with. *)
Definition possible_statuses (method : verb) (card : cardinality) : list Z :=
  match method, card with
  | GET, Listing => [200; 403; 500]
  | POST, Listing => [201; 403; 500]
  | GET, Detail => [200; 403; 404; 500]
  | PUT, Detail => [202; 403; 500]
  | PATCH, Detail => [202; 403; 404; 500]
  | DELETE, Detail => [204; 403; 500]
  | _, _ => [501]
  end.

(** ** Sample data *)

(** The class as it is, without a whitelist. *)
Definition plain_kule : Kule := {| collections := None; subclass := ∅ |}.

(** An instance whose whitelist holds one collection. *)
Definition public_only : Kule := {| collections := Some ["public"]; subclass := ∅ |}.

(** A database without documents. *)
Definition empty_world : world := World ∅ 0 200.

(** A request without parameters and without a body. *)
Definition bare_request : request := Request [] VNull.

(** A stored document [{"a": 1, "b": 3}] and a database that holds it. *)
Definition doc_ab : document :=
  {[ "_id" := VOid (new_oid 7); "a" := VInt 1; "b" := VInt 3 ]}.

Definition world_ab : world := World {[ "things" := [doc_ab] ]} 8 200.

(** A POST of [{"a": 1}], a PATCH of [{"a": 2}], a list request for the
    first page of one. *)
Definition post_a1 : request := Request [] (VObj {[ "a" := VInt 1 ]}).

Definition patch_a2 : request := Request [] (VObj {[ "a" := VInt 2 ]}).

Definition first_one : request := Request [("limit", "1"); ("offset", "0")] VNull.

(** A PUT of [{"c": 5}], a list request whose query is a list, the id of
    the stored sample document and an id that no document carries. *)
Definition put_c5 : request := Request [] (VObj {[ "c" := VInt 5 ]}).

Definition query_list : request := Request [("query", "[1]")] VNull.

Definition pk_ab : string := str_oid (new_oid 7).

Definition pk_none : string := str_oid (new_oid 9).

(** Options as [main] gets them from
    [--bind 0.0.0.0:8080 -d test -c a,b]. *)
Definition sample_options : options :=
  Options (Some "0.0.0.0:8080") None None (Some "test") (Some "a,b").

(** A second stored document, a database that holds both, and list
    requests: the second page of one, a negative offset, and the filter
    [{"b": 3}]. *)
Definition doc_cd : document :=
  {[ "_id" := VOid (new_oid 8); "a" := VInt 2 ]}.

Definition world_two : world := World {[ "things" := [doc_ab; doc_cd] ]} 9 200.

Definition second_one : request := Request [("limit", "1"); ("offset", "1")] VNull.

Definition negative_offset : request := Request [("offset", "-1")] VNull.

Definition query_b3 : request :=
  Request [("query", "{" ++ String "034" "b" ++ String "034" ": 3}")] VNull.

(** A bundler that adds a computed field, and a subclass that defines it
    for the collection [widgets]. *)
Definition add_computed (data : document) : value :=
  VObj (<["computed" := VBool true]> data).

Definition widgets_kule : Kule :=
  define_method plain_kule "build_widgets_bundle" add_computed.

(** * Properties *)

(** ** Object ids *)

Lemma nibble_digit (n : N) : (n < 16)%N -> Hex.nibble (Hex.digit n) = Some n.
Proof.
  intros Hn.
  assert (Hcases : In n (map N.of_nat (seq 0 16))).
  { apply in_map_iff. exists (N.to_nat n). split; [lia|]. apply in_seq. lia. }
  simpl in Hcases.
  repeat (destruct Hcases as [<- | Hcases]; [reflexivity|]).
  destruct Hcases.
Qed.

Lemma unhexlify_hexlify (s : string) : Hex.unhexlify (Hex.hexlify s) = Some s.
Proof.
  induction s as [|c s IH]; [reflexivity|].
  cbn [Hex.hexlify Hex.unhexlify].
  assert (Hc : (N_of_ascii c < 256)%N) by apply N_ascii_bounded.
  rewrite !nibble_digit, IH.
  - f_equal. f_equal.
    rewrite <- (ascii_N_embedding c) at 3. f_equal.
    symmetry. apply N.div_mod. lia.
  - apply N.mod_lt. lia.
  - apply N.Div0.div_lt_upper_bound. lia.
Qed.

Lemma length_hexlify (s : string) :
  String.length (Hex.hexlify s) = (2 * String.length s)%nat.
Proof. induction s as [|c s IH]; simpl; [reflexivity|]. rewrite IH. lia. Qed.

Lemma length_append (a b : string) :
  String.length (a ++ b) = (String.length a + String.length b)%nat.
Proof. induction a as [|c a IH]; simpl; [reflexivity|]. now rewrite IH. Qed.

Lemma length_bytes_be (k : nat) (n : N) : String.length (bytes_be k n) = k.
Proof.
  revert n. induction k as [|k IH]; intros n; simpl; [reflexivity|].
  rewrite length_append, IH. simpl. lia.
Qed.

(** [ObjectId(str(oid)) == oid] for a 12-byte id. *)
Lemma ObjectId_str_oid (o : string) :
  String.length o = 12%nat -> ObjectId (str_oid o) = Some o.
Proof.
  intros Hlen. unfold ObjectId, str_oid.
  rewrite length_hexlify, Hlen. simpl. apply unhexlify_hexlify.
Qed.

Lemma ObjectId_new_oid (n : N) : ObjectId (str_oid (new_oid n)) = Some (new_oid n).
Proof. apply ObjectId_str_oid, length_bytes_be. Qed.

Section Properties.

Context `{Library}.

(** ** The handler monad *)

Lemma bind_Return {A B} (m : M A) (k : A -> M B) (w w' : world) (a : A) :
  m w = (Return a, w') -> bind m k w = k a w'.
Proof. intros Hm. unfold bind. now rewrite Hm. Qed.

Lemma bind_Abort {A B} (m : M A) (k : A -> M B) (w w' : world) (code : Z) :
  m w = (Abort code, w') -> bind m k w = (Abort code, w').
Proof. intros Hm. unfold bind. now rewrite Hm. Qed.

Lemma bind_Raise {A B} (m : M A) (k : A -> M B) (w w' : world) (e : exn) :
  m w = (Raise e, w') -> bind m k w = (Raise e, w').
Proof. intros Hm. unfold bind. now rewrite Hm. Qed.

(** ** The whitelist *)

Lemma existsb_eqb_elem_of (c : string) (l : list string) :
  existsb (String.eqb c) l = true <-> c ∈ l.
Proof.
  rewrite existsb_exists, list_elem_of_In. split.
  - intros (x & Hin & Heq). apply String.eqb_eq in Heq. now subst.
  - intros Hin. exists c. split; [assumption | apply String.eqb_refl].
Qed.

Lemma denied_spec (self : Kule) (c : string) :
  denied self c = true <->
  exists l, collections self = Some l /\ l <> [] /\ c ∉ l.
Proof.
  unfold denied. destruct (collections self) as [[|x l]|].
  - split; [discriminate|]. intros (l & Hl & Hne & _). congruence.
  - rewrite negb_true_iff. split.
    + intros Hex. exists (x :: l). repeat split; [discriminate|].
      intros Hin. apply existsb_eqb_elem_of in Hin. congruence.
    + intros (l' & Hl & _ & Hnin). injection Hl as <-.
      destruct (existsb (String.eqb c) (x :: l)) eqn:Hex; [|reflexivity].
      apply existsb_eqb_elem_of in Hex. contradiction.
  - split; [discriminate|]. intros (l & Hl & _). discriminate.
Qed.

(** Started without [--collections], [main] builds a whitelist of one
    name, the empty string: a non-empty list, which denies every collection
    with a name. *)
Remark main_without_collections (sub : gmap string (document -> value)) (c : string) :
  main_collections None = [""] /\
  denied {| collections := Some (main_collections None); subclass := sub |} c =
    negb (String.eqb c "").
Proof.
  split; [reflexivity|]. unfold denied. cbn. now rewrite orb_false_r.
Qed.

Lemma get_collection_denied (self : Kule) (c : string) (w : world) :
  denied self c = true -> get_collection self c w = (Abort 403, w).
Proof. intros Hd. unfold get_collection. now rewrite Hd. Qed.

Lemma get_collection_permitted (self : Kule) (c : string) (w : world) :
  denied self c = false -> valid_name c = true ->
  get_collection self c w = (Return {| name := c |}, w).
Proof.
  intros Hd Hv. unfold get_collection, getitem. now rewrite Hd, Hv.
Qed.

(** Each generic handler gives up on a denied collection before anything
    else happens. *)
Lemma handlers_denied (self : Kule) (c pk : string) (req : request) (w : world) :
  denied self c = true ->
  get_list self c req w = (Abort 403, w) /\
  post_list self c req w = (Abort 403, w) /\
  get_detail self c pk w = (Abort 403, w) /\
  put_detail self c pk req w = (Abort 403, w) /\
  patch_detail self c pk req w = (Abort 403, w) /\
  delete_detail self c pk w = (Abort 403, w).
Proof.
  intros Hd.
  unfold get_list, post_list, get_detail, put_detail, patch_detail, delete_detail.
  repeat split; apply bind_Abort, get_collection_denied, Hd.
Qed.

(** ** Requests on the generic paths *)

(** A generic path is served by the class's own code exactly when no
    subclass redefines its view; the view is then the handler of the pair,
    or [not_implemented]. *)
Lemma serve_own (self : Kule) (method : verb) (card : cardinality)
    (c pk : string) (req : request) (m : M body) :
  serve self method card c pk req = Some m ->
  if own_handler method card then
    match method, card with
    | GET, Listing => m = get_list self c req
    | POST, Listing => m = post_list self c req
    | GET, Detail => m = get_detail self c pk
    | PUT, Detail => m = put_detail self c pk req
    | PATCH, Detail => m = patch_detail self c pk req
    | DELETE, Detail => m = delete_detail self c pk
    | _, _ => False
    end
  else m = not_implemented.
Proof.
  unfold serve, call_view, generic_view, getattr, hasattr.
  destruct method, card; cbn;
    repeat match goal with
           | |- context [subclass self !! ?k] =>
               destruct (subclass self !! k) eqn:?; cbn
           end;
    intros Hm; try discriminate; now injection Hm as <-.
Qed.

Lemma handle_Abort (m : M body) (w : world) (code : Z) :
  (forall w', m w' = (Abort code, w')) ->
  handle m w = (error_response code, World (database w) (oid_seq w) 200).
Proof. intros Hm. unfold handle. now rewrite Hm. Qed.

(** ** C1: the whitelist *)

(** C1, as amended.  On a collection outside a non-empty whitelist, each
    (method, cardinality) pair that has a generic handler (GET and POST on
    the list path, GET, PUT, PATCH and DELETE on the detail path) fails with
    Forbidden (403); the four remaining pairs are bound to [not_implemented]
    and fail with 501 whatever the whitelist says.  A collection is denied
    only by a non-empty whitelist that lacks it: without a whitelist
    ([None] or the empty list) no name is ever forbidden. *)
Theorem whitelist_gate (self : Kule) :
  (forall method card c pk req m w,
      serve self method card c pk req = Some m ->
      denied self c = true ->
      m w = (Abort (if own_handler method card then 403 else 501), w) /\
      fst (handle m w) =
        error_response (if own_handler method card then 403 else 501)) /\
  (forall c, denied self c = true <->
             exists l, collections self = Some l /\ l <> [] /\ c ∉ l) /\
  (forall c w, denied self c = false -> get_collection self c w = getitem c w).
Proof.
  split; [|split].
  - intros method card c pk req m w Hserve Hd.
    apply serve_own in Hserve.
    destruct (handlers_denied self c pk req w Hd) as (Hgl & Hpl & Hgd & Hpd & Hpa & Hdd).
    assert (Hall : forall w', m w' = (Abort (if own_handler method card then 403 else 501), w')).
    { intros w'.
      destruct (handlers_denied self c pk req w' Hd) as (Hgl' & Hpl' & Hgd' & Hpd' & Hpa' & Hdd').
      destruct method, card; cbn in Hserve |- *;
        first [contradiction | rewrite Hserve; first [assumption | reflexivity]]. }
    split; [apply Hall|].
    now rewrite (handle_Abort m w _ Hall).
  - apply denied_spec.
  - intros c w Hd. unfold get_collection. now rewrite Hd.
Qed.

(** ** C10: a denied request leaves the store alone *)

(** C10.  On a collection the whitelist denies, every generic handler, the
    mutating ones included, stops at the whitelist check: the request is
    answered with Forbidden (403) and the database is what it was, so no
    insert, update or removal has taken place. *)
Theorem denied_leaves_store (self : Kule) (c pk : string) (req : request) (w : world) :
  denied self c = true ->
  Forall (fun h : M body =>
            h w = (Abort 403, w) /\
            fst (handle h w) = error_response 403 /\
            database (snd (handle h w)) = database w)
    [get_list self c req; post_list self c req; get_detail self c pk;
     put_detail self c pk req; patch_detail self c pk req;
     delete_detail self c pk].
Proof.
  intros Hd.
  destruct (handlers_denied self c pk req w Hd) as (Hgl & Hpl & Hgd & Hpd & Hpa & Hdd).
  destruct (handlers_denied self c pk req (World (database w) (oid_seq w) 200) Hd)
    as (Hgl' & Hpl' & Hgd' & Hpd' & Hpa' & Hdd').
  repeat (apply Forall_cons; split;
          [split; [assumption|]; unfold handle;
           first [rewrite Hgl' | rewrite Hpl' | rewrite Hgd'
                 | rewrite Hpd' | rewrite Hpa' | rewrite Hdd'];
           split; reflexivity|]).
  apply Forall_nil. exact I.
Qed.

(** ** C3: a malformed pk *)

Lemma to_ObjectId_invalid (pk : string) (w : world) :
  ObjectId pk = None -> to_ObjectId pk w = (Raise InvalidId, w).
Proof. intros Hpk. unfold to_ObjectId. now rewrite Hpk. Qed.

Lemma to_ObjectId_valid (pk oid : string) (w : world) :
  ObjectId pk = Some oid -> to_ObjectId pk w = (Return oid, w).
Proof. intros Hpk. unfold to_ObjectId. now rewrite Hpk. Qed.

Lemma detail_handlers_invalid_id (self : Kule) (c pk : string) (req : request) (w : world) :
  denied self c = false -> valid_name c = true -> ObjectId pk = None ->
  get_detail self c pk w = (Raise InvalidId, w) /\
  put_detail self c pk req w = (Raise InvalidId, w) /\
  patch_detail self c pk req w = (Raise InvalidId, w) /\
  delete_detail self c pk w = (Raise InvalidId, w).
Proof.
  intros Hd Hv Hpk.
  unfold get_detail, put_detail, patch_detail, delete_detail.
  repeat split;
    (erewrite bind_Return by (apply get_collection_permitted; eassumption));
    apply bind_Raise, to_ObjectId_invalid, Hpk.
Qed.

(** C3, as amended.  On a permitted collection, GET, PUT, PATCH and DELETE
    on the detail path with a pk that is not well-formed for [ObjectId] end
    in an uncaught [InvalidId]: bottle answers Internal Server Error (500),
    not Bad Request (400), and the database is untouched. *)
Theorem malformed_pk (self : Kule) (method : verb) (c pk : string)
    (req : request) (m : M body) (w : world) :
  serve self method Detail c pk req = Some m ->
  own_handler method Detail = true ->
  denied self c = false -> valid_name c = true ->
  ObjectId pk = None ->
  m w = (Raise InvalidId, w) /\
  fst (handle m w) = Response 500 (error "Internal Server Error." 500) /\
  database (snd (handle m w)) = database w.
Proof.
  intros Hserve Hown Hd Hv Hpk.
  apply serve_own in Hserve. rewrite Hown in Hserve.
  destruct (detail_handlers_invalid_id self c pk req w Hd Hv Hpk)
    as (Hgd & Hpd & Hpa & Hdd).
  destruct (detail_handlers_invalid_id self c pk req
              (World (database w) (oid_seq w) 200) Hd Hv Hpk)
    as (Hgd' & Hpd' & Hpa' & Hdd').
  destruct method; try discriminate Hown; subst m;
    (split; [assumption|]); unfold handle;
    first [rewrite Hgd' | rewrite Hpd' | rewrite Hpa' | rewrite Hdd'];
    split; reflexivity.
Qed.

(** ** The store *)

Lemma has_id_refl (o : string) (d : document) :
  d !! "_id" = Some (VOid o) -> has_id (VOid o) d = true.
Proof. intros Hd. unfold has_id. rewrite Hd. cbn. apply String.eqb_refl. Qed.

Lemma has_id_nonempty (i : value) (d : document) : has_id i d = true -> d <> ∅.
Proof.
  unfold has_id. intros Hd ->. now rewrite lookup_empty in Hd.
Qed.

Lemma filter_none {A} (f : A -> bool) (l : list A) :
  existsb f l = false -> List.filter f l = [].
Proof.
  induction l as [|x l IH]; cbn; [reflexivity|].
  intros Hex. apply orb_false_iff in Hex as [Hx Hl].
  rewrite Hx. now apply IH.
Qed.

Lemma head_filter_Some {A} (f : A -> bool) (l : list A) (x : A) :
  head (List.filter f l) = Some x -> f x = true.
Proof.
  induction l as [|y l IH]; cbn; [discriminate|].
  destruct (f y) eqn:Hy; cbn; [|assumption].
  intros Hx. injection Hx as <-. assumption.
Qed.

Lemma documents_insert (db : gmap string (list document)) (s : N) (st : Z)
    (c : Collection) (docs : list document) :
  documents (World (<[name c := docs]> db) s st) c = docs.
Proof. unfold documents. cbn. now rewrite lookup_insert_eq. Qed.

Lemma documents_alter (f : list document -> list document)
    (db : gmap string (list document)) (s s' : N) (st st' : Z) (c : Collection) :
  f [] = [] ->
  documents (World (alter f (name c) db) s st) c = f (documents (World db s' st') c).
Proof.
  intros Hf. unfold documents. cbn. rewrite lookup_alter_eq.
  destruct (db !! name c); cbn; congruence.
Qed.

Lemma find_one_eq (c : Collection) (oid : string) (w : world) :
  find_one c oid w =
  (Return (head (List.filter (has_id (VOid oid)) (documents w c))), w).
Proof. reflexivity. Qed.

(** ** Reading one document *)

Lemma get_detail_found (self : Kule) (c pk oid : string) (d : document) (w : world) :
  denied self c = false -> valid_name c = true ->
  ObjectId pk = Some oid ->
  head (List.filter (has_id (VOid oid)) (documents w {| name := c |})) = Some d ->
  get_detail self c pk w =
  (Return (jsonify (get_bundler self {| name := c |} d)), w).
Proof.
  intros Hd Hv Hpk Hfound. unfold get_detail.
  erewrite bind_Return by (apply get_collection_permitted; eassumption).
  erewrite bind_Return by (apply to_ObjectId_valid; eassumption).
  erewrite bind_Return by apply find_one_eq.
  rewrite Hfound.
  assert (Ht : truthy (VObj d) = true).
  { cbn. apply negb_true_iff, bool_decide_eq_false.
    eapply has_id_nonempty, head_filter_Some, Hfound. }
  rewrite Ht. reflexivity.
Qed.

Lemma get_detail_missing (self : Kule) (c pk oid : string) (w : world) :
  denied self c = false -> valid_name c = true ->
  ObjectId pk = Some oid ->
  head (List.filter (has_id (VOid oid)) (documents w {| name := c |})) = None ->
  get_detail self c pk w = (Abort 404, w).
Proof.
  intros Hd Hv Hpk Hnone. unfold get_detail.
  erewrite bind_Return by (apply get_collection_permitted; eassumption).
  erewrite bind_Return by (apply to_ObjectId_valid; eassumption).
  erewrite bind_Return by apply find_one_eq.
  rewrite Hnone. reflexivity.
Qed.

(** ** Creating a document *)

Lemma insert_fresh (c : Collection) (d : document) (w : world) :
  d !! "_id" = None ->
  storable (<["_id" := VOid (new_oid (oid_seq w))]> d) = true ->
  existsb (has_id (VOid (new_oid (oid_seq w)))) (documents w c) = false ->
  insert c (VObj d) w =
  (Return (VOid (new_oid (oid_seq w))),
   World (<[name c :=
              (documents w c ++ [<["_id" := VOid (new_oid (oid_seq w))]> d])%list]>
            (database w))
         (N.succ (oid_seq w)) (response_status w)).
Proof.
  intros Hid Hst Hfresh.
  unfold insert, insert_documents, bind, assign_ids, assign_id, bind, ret,
    get_world, store_documents.
  rewrite Hid. cbn -[new_oid]. rewrite Hst. cbn -[new_oid].
  unfold id_of. rewrite lookup_insert_eq. cbn -[new_oid].
  change (documents (World (database w) (N.succ (oid_seq w)) (response_status w)) c)
    with (documents w c).
  rewrite Hfresh. reflexivity.
Qed.

Lemma post_list_fresh (self : Kule) (c : string) (d : document) (req : request) (w : world) :
  denied self c = false -> valid_name c = true ->
  json req = VObj d -> d !! "_id" = None ->
  storable (<["_id" := VOid (new_oid (oid_seq w))]> d) = true ->
  existsb (has_id (VOid (new_oid (oid_seq w)))) (documents w {| name := c |}) = false ->
  post_list self c req w =
  (Return (jsonify (VObj {["_id" := VOid (new_oid (oid_seq w))]})),
   World (<[c := (documents w {| name := c |} ++
                  [<["_id" := VOid (new_oid (oid_seq w))]> d])%list]> (database w))
         (N.succ (oid_seq w)) 201).
Proof.
  intros Hd Hv Hjson Hid Hst Hfresh. unfold post_list.
  erewrite bind_Return by (apply get_collection_permitted; eassumption).
  rewrite Hjson.
  erewrite bind_Return by (apply insert_fresh; eassumption).
  reflexivity.
Qed.

Lemma head_filter_last (i : string) (docs : list document) (d : document) :
  existsb (has_id (VOid i)) docs = false ->
  d !! "_id" = Some (VOid i) ->
  head (List.filter (has_id (VOid i)) (docs ++ [d])) = Some d.
Proof.
  intros Hfresh Hd.
  rewrite List.filter_app, (filter_none _ _ Hfresh). cbn.
  now rewrite (has_id_refl _ _ Hd).
Qed.

(** ** C4: create, then read *)

(** C4.  On a permitted collection, POST of a document without [_id] (such
    as [{"a": 1}]) answers 201 with [{"_id": <new id>}]; GET detail with
    that id then answers 200 with the bundled stored document, which is the
    posted document with the [_id] field added: under the generic bundler
    every posted field is in the body.  GET detail with a well-formed id
    that no document carries fails with Not Found (404). *)
Theorem create_then_detail (self : Kule) (c : string) (d : document)
    (req : request) (w : world) :
  denied self c = false -> valid_name c = true ->
  json req = VObj d -> d !! "_id" = None ->
  storable (<["_id" := VOid (new_oid (oid_seq w))]> d) = true ->
  existsb (has_id (VOid (new_oid (oid_seq w)))) (documents w {| name := c |}) = false ->
  let oid := new_oid (oid_seq w) in
  let stored := <["_id" := VOid oid]> d in
  let created := handle (post_list self c req) w in
  fst created = Response 201 (jsonify (VObj {["_id" := VOid oid]})) /\
  fst (handle (get_detail self c (str_oid oid)) (snd created)) =
    Response 200 (jsonify (get_bundler self {| name := c |} stored)) /\
  (subclass self = ∅ ->
   get_bundler self {| name := c |} stored = VObj stored) /\
  (forall k v, d !! k = Some v -> stored !! k = Some v) /\
  (forall pk oid',
      ObjectId pk = Some oid' ->
      existsb (has_id (VOid oid')) (documents w {| name := c |}) = false ->
      fst (handle (get_detail self c pk) w) =
        Response 404 (error "Document Not Found." 404)).
Proof.
  intros Hd Hv Hjson Hid Hst Hfresh oid stored created.
  assert (Hcreated : created =
            (Response 201 (jsonify (VObj {["_id" := VOid oid]})),
             World (<[c := (documents w {| name := c |} ++ [stored])%list]> (database w))
                   (N.succ (oid_seq w)) 201)).
  { unfold created, handle.
    erewrite post_list_fresh by (cbn; eassumption). reflexivity. }
  rewrite Hcreated. cbn [fst snd].
  split; [reflexivity|]. split; [|split; [|split]].
  - unfold handle. cbn [database oid_seq].
    erewrite get_detail_found; [reflexivity|assumption..| |].
    + apply ObjectId_new_oid.
    + rewrite (documents_insert _ _ _ {| name := c |}).
      apply head_filter_last; [assumption|].
      unfold stored. apply lookup_insert_eq.
  - intros Hsub. unfold get_bundler, self_build_bundle.
    rewrite Hsub, !lookup_empty. reflexivity.
  - intros k v Hk. unfold stored.
    rewrite lookup_insert_ne; [assumption|]. congruence.
  - intros pk oid' Hpk Hnone. unfold handle.
    erewrite get_detail_missing; [reflexivity|assumption..|eassumption|].
    change (documents (World (database w) (oid_seq w) 200) {| name := c |})
      with (documents w {| name := c |}).
    now rewrite (filter_none _ _ Hnone).
Qed.

(** ** Listing *)

Lemma get_query_malformed (req : request) (text : string) (w : world) :
  multidict_get "query" (query req) = Some text ->
  String.eqb text "" = false ->
  json_loads text = None ->
  get_query req w = (Raise ValueError, w).
Proof. intros Hq Hne Hbad. unfold get_query. now rewrite Hq, Hne, Hbad. Qed.

(** A request with a filter: [get_query] returns, and [find] takes what it
    returned as that filter. *)
Lemma requested_filter_found (req : request) (q : document) (c : Collection) (w : world) :
  requested_filter req = Some q ->
  exists v,
    get_query req w = (Return v, w) /\
    find c v w = (Return {| cursor_collection := c; cursor_spec := q;
                            cursor_skip := 0; cursor_limit := 0 |}, w).
Proof.
  unfold requested_filter, get_query.
  destruct (multidict_get "query" (query req)) as [text|].
  - destruct (String.eqb text "") eqn:Htext; cbn.
    + intros Hq. injection Hq as <-. now exists (VObj ∅).
    + destruct (json_loads text) as [[]|]; try discriminate;
        intros Hq; injection Hq as <-; eexists; split; reflexivity.
  - intros Hq. injection Hq as <-. now exists (VObj ∅).
Qed.

Lemma get_list_returns (self : Kule) (c : string) (req : request) (w : world)
    (q : document) :
  denied self c = false -> valid_name c = true ->
  requested_filter req = Some q ->
  let limit_ := int_or_default (formsdict_attr "limit" (query req)) 20 in
  let offset := int_or_default (formsdict_attr "offset" (query req)) 0 in
  let selected := List.filter (matches q) (documents w {| name := c |}) in
  0 <= offset -> int32 offset = true -> int32 limit_ = true ->
  get_list self c req w =
  (Return (jsonify (VObj
     {[ "meta" := VObj {[ "limit" := VInt limit_; "offset" := VInt offset;
                          "total_count" := VInt (Z.of_nat (List.length selected)) ]};
        "objects" := VArr (map (get_bundler self {| name := c |})
                             (limited limit_ (drop (Z.to_nat offset) selected))) ]})),
   w).
Proof.
  intros Hd Hv Hq limit_ offset selected Hoff Hoff32 Hlim32.
  destruct (requested_filter_found req q {| name := c |} w Hq) as (v & Hquery & Hfind).
  unfold get_list.
  erewrite bind_Return by (apply get_collection_permitted; eassumption).
  erewrite bind_Return by exact Hquery.
  erewrite bind_Return by exact Hfind.
  unfold bind, count, skip, limit, fetch, ret. cbn.
  fold limit_ offset.
  destruct (Z.ltb_spec offset 0) as [Hneg|_]; [lia|]. cbn.
  rewrite Hoff32, Hlim32. reflexivity.
Qed.

(** ** C5: the list envelope *)

Lemma get_list_negative_offset (self : Kule) (c : string) (req : request) (w : world)
    (q : document) :
  denied self c = false -> valid_name c = true ->
  requested_filter req = Some q ->
  int_or_default (formsdict_attr "offset" (query req)) 0 < 0 ->
  get_list self c req w = (Raise ValueError, w).
Proof.
  intros Hd Hv Hq Hneg.
  destruct (requested_filter_found req q {| name := c |} w Hq) as (v & Hquery & Hfind).
  unfold get_list.
  erewrite bind_Return by (apply get_collection_permitted; eassumption).
  erewrite bind_Return by exact Hquery.
  erewrite bind_Return by exact Hfind.
  unfold bind, count, skip, raise. cbn.
  destruct (Z.ltb_spec (int_or_default (formsdict_attr "offset" (query req)) 0) 0)
    as [_|Hge]; [reflexivity | lia].
Qed.

Lemma get_list_overflow (self : Kule) (c : string) (req : request) (w : world)
    (q : document) :
  denied self c = false -> valid_name c = true ->
  requested_filter req = Some q ->
  0 <= int_or_default (formsdict_attr "offset" (query req)) 0 ->
  int32 (int_or_default (formsdict_attr "offset" (query req)) 0) &&
  int32 (int_or_default (formsdict_attr "limit" (query req)) 20) = false ->
  get_list self c req w = (Raise OverflowError, w).
Proof.
  intros Hd Hv Hq Hoff Hwide.
  destruct (requested_filter_found req q {| name := c |} w Hq) as (v & Hquery & Hfind).
  unfold get_list.
  erewrite bind_Return by (apply get_collection_permitted; eassumption).
  erewrite bind_Return by exact Hquery.
  erewrite bind_Return by exact Hfind.
  unfold bind, count, skip, limit, fetch, ret, raise. cbn.
  destruct (Z.ltb_spec (int_or_default (formsdict_attr "offset" (query req)) 0) 0)
    as [Hneg|_]; [lia|]. cbn.
  now rewrite Hwide.
Qed.

(** C5, as amended.  A list request on a permitted collection whose query
    is absent or decodes to a filter, with an offset that is not negative
    and a limit and an offset within 32 bits, answers 200 with
    [{meta: {limit, offset, total_count}, objects}]: [total_count] is the
    number of all documents the filter selects, whatever the page; the
    page is what follows the first [offset] selected documents, all of it
    for the limit 0 and its first [|limit|] documents otherwise; each
    object is the collection's bundler applied to a document of the page.
    On a collection without documents and a request without parameters the
    body is exactly [{meta: {limit: 20, offset: 0, total_count: 0},
    objects: []}].  A list request with a negative offset, or with a limit
    or an offset outside 32 bits, is not answered with an envelope: it ends
    in an uncaught exception, answered as Internal Server Error (500). *)
Theorem list_envelope (self : Kule) (c : string) (req : request) (w : world) :
  denied self c = false -> valid_name c = true ->
  let limit_ := int_or_default (formsdict_attr "limit" (query req)) 20 in
  let offset := int_or_default (formsdict_attr "offset" (query req)) 0 in
  (forall q,
      requested_filter req = Some q ->
      0 <= offset -> int32 offset = true -> int32 limit_ = true ->
      let selected := List.filter (matches q) (documents w {| name := c |}) in
      let rest := drop (Z.to_nat offset) selected in
      let page := if limit_ =? 0 then rest else take (Z.abs_nat limit_) rest in
      fst (handle (get_list self c req) w) =
      Response 200 (jsonify (VObj
        {[ "meta" := VObj {[ "limit" := VInt limit_; "offset" := VInt offset;
                             "total_count" := VInt (Z.of_nat (List.length selected)) ]};
           "objects" := VArr (map (get_bundler self {| name := c |}) page) ]}))) /\
  (query req = [] -> documents w {| name := c |} = [] ->
   fst (handle (get_list self c req) w) =
   Response 200 (jsonify (VObj
     {[ "meta" := VObj {[ "limit" := VInt 20; "offset" := VInt 0;
                          "total_count" := VInt 0 ]};
        "objects" := VArr [] ]}))) /\
  (forall q,
      requested_filter req = Some q ->
      offset < 0 \/ (0 <= offset /\ int32 offset && int32 limit_ = false) ->
      fst (handle (get_list self c req) w) =
        Response 500 (error "Internal Server Error." 500) /\
      database (snd (handle (get_list self c req) w)) = database w).
Proof.
  intros Hd Hv limit_ offset. split; [|split].
  - intros q Hq Hoff Hoff32 Hlim32 selected rest page.
    unfold handle.
    erewrite get_list_returns by eassumption. reflexivity.
  - intros Hbare Hempty. unfold handle.
    erewrite (get_list_returns self c req _ ∅); try eassumption.
    + rewrite Hbare. cbn.
      change (documents (World (database w) (oid_seq w) 200) {| name := c |})
        with (documents w {| name := c |}).
      rewrite Hempty. reflexivity.
    + unfold requested_filter. now rewrite Hbare.
    + rewrite Hbare. cbn. lia.
    + rewrite Hbare. reflexivity.
    + rewrite Hbare. reflexivity.
  - intros q Hq [Hneg | [Hoff Hwide]]; unfold handle.
    + erewrite get_list_negative_offset by eassumption. split; reflexivity.
    + erewrite get_list_overflow by eassumption. split; reflexivity.
Qed.

(** ** C2: the query parameter *)

(** C2, as amended.  On a permitted collection, a list request without a
    [query] parameter (or with an empty one) asks the store with the empty
    filter [{}].  A non-empty [query] that [json.loads] rejects makes the
    request fail, never fall back to the empty filter; the failure is an
    uncaught [ValueError], which bottle answers as Internal Server Error
    (500), not as Bad Request (400). *)
Theorem query_filter (self : Kule) (c : string) (req : request) (w : world) :
  denied self c = false -> valid_name c = true ->
  (multidict_get "query" (query req) = None \/
   multidict_get "query" (query req) = Some "" ->
   get_query req w = (Return (VObj ∅), w) /\
   (query <- get_query req;; find {| name := c |} query) w =
     (Return {| cursor_collection := {| name := c |}; cursor_spec := ∅;
                cursor_skip := 0; cursor_limit := 0 |}, w)) /\
  (forall text,
      multidict_get "query" (query req) = Some text ->
      String.eqb text "" = false ->
      json_loads text = None ->
      get_list self c req w = (Raise ValueError, w) /\
      fst (handle (get_list self c req) w) =
        Response 500 (error "Internal Server Error." 500) /\
      database (snd (handle (get_list self c req) w)) = database w).
Proof.
  intros Hd Hv. split.
  - intros Habsent.
    assert (Hq : get_query req w = (Return (VObj ∅), w)).
    { unfold get_query. destruct Habsent as [-> | ->]; reflexivity. }
    split; [exact Hq|].
    erewrite bind_Return by exact Hq. reflexivity.
  - intros text Hq Hne Hbad.
    assert (Hfail : forall w', get_list self c req w' = (Raise ValueError, w')).
    { intros w'. unfold get_list.
      erewrite bind_Return by (apply get_collection_permitted; eassumption).
      apply bind_Raise. now apply (get_query_malformed req text). }
    split; [apply Hfail|].
    unfold handle. rewrite Hfail. split; reflexivity.
Qed.

(** ** Updating *)

Lemma plain_no_id (p : document) : plain p = true -> p !! "_id" = None.
Proof.
  intros Hp. destruct (p !! "_id") as [v|] eqn:Hid; [|reflexivity].
  apply elem_of_map_to_list, list_elem_of_In in Hid.
  unfold plain in Hp. rewrite forallb_forall in Hp.
  specialize (Hp _ Hid). discriminate Hp.
Qed.

Lemma updated_set (p d : document) :
  plain p = true -> updated {["$set" := VObj p]} d = p ∪ d.
Proof.
  intros Hp. unfold updated, replacement.
  rewrite map_to_list_singleton. cbn.
  rewrite lookup_singleton_eq, dom_singleton_L, bool_decide_eq_true_2 by reflexivity.
  now rewrite Hp.
Qed.

Lemma update_set_eq (c : Collection) (oid : string) (v : value) (w : world) :
  update c oid (VObj {["$set" := v]}) w =
  (Return tt,
   World (alter (update_first (updated {["$set" := v]}) (VOid oid)) (name c) (database w))
         (oid_seq w) (response_status w)).
Proof.
  unfold update, replacement. rewrite map_to_list_singleton. reflexivity.
Qed.

Lemma update_first_ext (f g : document -> document) (i : value) (docs : list document) :
  (forall d, f d = g d) -> update_first f i docs = update_first g i docs.
Proof.
  intros Hfg. induction docs as [|d docs IH]; cbn; [reflexivity|].
  destruct (has_id i d); [now rewrite Hfg | now rewrite IH].
Qed.

(** After an update that keeps the [_id], the document found under that
    [_id] is the updated one. *)
Lemma head_filter_update_first (f : document -> document) (i : value)
    (docs : list document) (d : document) :
  head (List.filter (has_id i) docs) = Some d ->
  has_id i (f d) = true ->
  head (List.filter (has_id i) (update_first f i docs)) = Some (f d).
Proof.
  intros Hfound Hkeep.
  induction docs as [|d0 docs IH]; cbn in *; [discriminate|].
  destruct (has_id i d0) eqn:Hd0; cbn in *.
  - injection Hfound as ->. now rewrite Hkeep.
  - rewrite Hd0. now apply IH.
Qed.

Lemma has_id_union (i : value) (p d : document) :
  p !! "_id" = None -> has_id i (p ∪ d) = has_id i d.
Proof. intros Hp. unfold has_id. now rewrite lookup_union_r. Qed.

(** ** C6: PATCH merges *)

(** C6.  PATCH with plain fields on a stored document overwrites exactly
    those fields (a store-level [$set]) and keeps every other field: the
    stored document becomes the patch laid over the old document, so
    patching [{"a": 2}] onto [{"a": 1, "b": 3}] leaves [{"a": 2, "b": 3}].
    The PATCH answers 202 with the re-fetched, re-bundled document, and a
    following GET detail answers 200 with the same document. *)
Theorem patch_merges (self : Kule) (c pk oid : string) (p d : document)
    (req : request) (w : world) :
  denied self c = false -> valid_name c = true ->
  ObjectId pk = Some oid ->
  json req = VObj p -> plain p = true ->
  head (List.filter (has_id (VOid oid)) (documents w {| name := c |})) = Some d ->
  let patched := handle (patch_detail self c pk req) w in
  fst patched = Response 202 (jsonify (get_bundler self {| name := c |} (p ∪ d))) /\
  fst (handle (get_detail self c pk) (snd patched)) =
    Response 200 (jsonify (get_bundler self {| name := c |} (p ∪ d))) /\
  documents (snd patched) {| name := c |} =
    update_first (fun d' => p ∪ d') (VOid oid) (documents w {| name := c |}) /\
  (forall k v, p !! k = Some v -> (p ∪ d) !! k = Some v) /\
  (forall k, p !! k = None -> (p ∪ d) !! k = d !! k).
Proof.
  intros Hd Hv Hpk Hjson Hp Hfound patched.
  pose proof (plain_no_id p Hp) as Hnoid.
  set (db' := alter (update_first (updated {["$set" := VObj p]}) (VOid oid)) c (database w)).
  assert (Hdocs : forall s st,
             documents (World db' s st) {| name := c |} =
             update_first (fun d' => p ∪ d') (VOid oid) (documents w {| name := c |})).
  { intros s st. unfold db'.
    rewrite (documents_alter _ _ _ (oid_seq w) _ (response_status w) {| name := c |})
      by reflexivity.
    apply update_first_ext. intros d'. now apply updated_set. }
  assert (Hrefetch : forall s st,
             get_detail self c pk (World db' s st) =
             (Return (jsonify (get_bundler self {| name := c |} (p ∪ d))),
              World db' s st)).
  { intros s st. eapply get_detail_found; try eassumption.
    rewrite Hdocs.
    apply (head_filter_update_first (fun d' => p ∪ d')); [assumption|].
    rewrite has_id_union by assumption.
    eapply head_filter_Some, Hfound. }
  assert (Hpatched : patched =
            (Response 202 (jsonify (get_bundler self {| name := c |} (p ∪ d))),
             World db' (oid_seq w) 202)).
  { unfold patched, handle, patch_detail.
    erewrite bind_Return by (apply get_collection_permitted; eassumption).
    erewrite bind_Return by (apply to_ObjectId_valid; eassumption).
    rewrite Hjson.
    erewrite bind_Return by apply update_set_eq.
    erewrite bind_Return by reflexivity.
    cbn [name database oid_seq response_status]. fold db'.
    rewrite Hrefetch. reflexivity. }
  rewrite Hpatched. cbn [fst snd].
  split; [reflexivity|]. split; [|split; [|split]].
  - unfold handle. cbn [database oid_seq]. now rewrite Hrefetch.
  - apply Hdocs.
  - intros k v Hk. now apply lookup_union_Some_l.
  - intros k Hk. now apply lookup_union_r.
Qed.

(** ** Deleting *)

Lemma filter_twice {A} (f : A -> bool) (l : list A) :
  List.filter f (List.filter f l) = List.filter f l.
Proof.
  induction l as [|x l IH]; cbn; [reflexivity|].
  destruct (f x) eqn:Hx; cbn; [rewrite Hx; now f_equal | assumption].
Qed.

Lemma filter_all {A} (f : A -> bool) (l : list A) :
  existsb (fun x => negb (f x)) l = false -> List.filter f l = l.
Proof.
  induction l as [|x l IH]; cbn; [reflexivity|].
  intros Hex. apply orb_false_iff in Hex as [Hx Hl].
  apply negb_false_iff in Hx. rewrite Hx. f_equal. now apply IH.
Qed.

Lemma alter_twice (f : list document -> list document) (k : string)
    (db : gmap string (list document)) :
  (forall l, f (f l) = f l) -> alter f k (alter f k db) = alter f k db.
Proof.
  intros Hf. apply map_eq. intros k'.
  destruct (decide (k = k')) as [<-|Hne].
  - rewrite !lookup_alter_eq. destruct (db !! k); cbn; [now rewrite Hf | reflexivity].
  - now rewrite !lookup_alter_ne.
Qed.

Lemma delete_detail_returns (self : Kule) (c pk oid : string) (w : world) :
  denied self c = false -> valid_name c = true ->
  ObjectId pk = Some oid ->
  delete_detail self c pk w =
  (Return Empty,
   World (alter (List.filter (fun d => negb (has_id (VOid oid) d))) c (database w))
         (oid_seq w) 204).
Proof.
  intros Hd Hv Hpk. unfold delete_detail.
  erewrite bind_Return by (apply get_collection_permitted; eassumption).
  erewrite bind_Return by (apply to_ObjectId_valid; eassumption).
  reflexivity.
Qed.

(** ** C7: DELETE is idempotent *)

(** C7.  DELETE with a well-formed pk on a permitted collection answers 204
    with an empty body whether or not a document carries that pk: it
    removes the documents with that [_id] and nothing else, which is no
    change at all when there is none.  Deleting again gives the same answer
    and leaves the store as the first deletion left it. *)
Theorem delete_idempotent (self : Kule) (c pk oid : string) (w : world) :
  denied self c = false -> valid_name c = true ->
  ObjectId pk = Some oid ->
  let deleted := handle (delete_detail self c pk) w in
  fst deleted = Response 204 Empty /\
  documents (snd deleted) {| name := c |} =
    List.filter (fun d => negb (has_id (VOid oid) d)) (documents w {| name := c |}) /\
  (forall c', c' <> c -> database (snd deleted) !! c' = database w !! c') /\
  (existsb (has_id (VOid oid)) (documents w {| name := c |}) = false ->
   database (snd deleted) = database w) /\
  handle (delete_detail self c pk) (snd deleted) = deleted.
Proof.
  intros Hd Hv Hpk deleted.
  set (keep := List.filter (fun d => negb (has_id (VOid oid) d))).
  assert (Hdeleted : deleted =
            (Response 204 Empty, World (alter keep c (database w)) (oid_seq w) 204)).
  { unfold deleted, handle.
    erewrite delete_detail_returns by eassumption. reflexivity. }
  rewrite Hdeleted. cbn [fst snd database].
  split; [reflexivity|]. split; [|split; [|split]].
  - now rewrite (documents_alter keep _ _ (oid_seq w) _ (response_status w) {| name := c |}).
  - intros c' Hne. now rewrite lookup_alter_ne.
  - intros Hnone. apply alter_id. intros docs Hdocs.
    unfold keep. apply filter_all.
    unfold documents in Hnone. cbn in Hnone. rewrite Hdocs in Hnone. cbn in Hnone.
    rewrite <- Hnone. clear. induction docs as [|x l IH]; cbn; [reflexivity|].
    now rewrite negb_involutive, IH.
  - unfold handle.
    erewrite delete_detail_returns by eassumption.
    cbn [database oid_seq snd]. fold keep.
    rewrite alter_twice; [reflexivity|].
    intros l. apply filter_twice.
Qed.

(** ** C8: the route table *)

Lemma magical_views_spec (self : Kule) (method : verb) (c : string) (r : route) :
  In r (magical_views self method c) <->
  exists card,
    hasattr self (lower method ++ "_" ++ c ++ suffix card) = true /\
    r = Route (magical_path c card) method (lower method ++ "_" ++ c ++ suffix card).
Proof.
  unfold magical_views. rewrite in_app_iff. split.
  - intros [Hl | Hd].
    + exists Listing. cbn.
      destruct (hasattr self (lower method ++ "_" ++ c ++ "_list")); cbn in Hl;
        [destruct Hl as [<-|[]]; now split | destruct Hl].
    + exists Detail. cbn.
      destruct (hasattr self (lower method ++ "_" ++ c ++ "_detail")); cbn in Hd;
        [destruct Hd as [<-|[]]; now split | destruct Hd].
  - intros ([|] & Hattr & ->); cbn in Hattr |- *; rewrite Hattr; cbn; auto.
Qed.

(** C8.  The route table holds, for each of GET, POST, PUT, PATCH and
    DELETE, the generic paths [/:collection] and [/:collection/:pk], bound
    to the method named [<verb>_list] or [<verb>_detail] when the instance
    has one and to [not_implemented] otherwise, and [not_implemented] fails
    with 501.  Beyond those it holds a path [/<collection>] or
    [/<collection>/:id] exactly for the whitelisted collections and the
    methods for which the instance has a view named
    [<verb>_<collection>_list] or [<verb>_<collection>_detail], bound to
    that view. *)
Theorem route_table (self : Kule) (r : route) :
  (r ∈ dispatch_views self <->
   (exists method card,
       r = Route (generic_path card) method (generic_view self method card)) \/
   (exists method card c,
       c ∈ default [] (collections self) /\
       hasattr self (lower method ++ "_" ++ c ++ suffix card) = true /\
       r = Route (magical_path c card) method
                 (lower method ++ "_" ++ c ++ suffix card))) /\
  (forall method card,
      generic_view self method card =
      if hasattr self (lower method ++ suffix card)
      then lower method ++ suffix card else "not_implemented") /\
  (forall w, not_implemented w = (Abort 501, w) /\
             fst (handle not_implemented w) =
               Response 501 (error "Not Implemented." 501)).
Proof.
  split; [|split].
  - rewrite list_elem_of_In. unfold dispatch_views.
    rewrite in_flat_map. split.
    + intros (method & _ & Hr). apply in_app_iff in Hr as [Hr | Hr].
      * left. exists method.
        destruct Hr as [<- | [<- | []]]; [now exists Listing | now exists Detail].
      * right. apply in_flat_map in Hr as (c & Hc & Hr).
        apply magical_views_spec in Hr as (card & Hattr & ->).
        exists method, card, c. now rewrite list_elem_of_In.
    + intros [(method & card & ->) | (method & card & c & Hc & Hattr & ->)].
      * exists method. split; [destruct method; cbn; tauto|].
        apply in_app_iff. left. destruct card; cbn; auto.
      * exists method. split; [destruct method; cbn; tauto|].
        apply in_app_iff. right. apply in_flat_map.
        exists c. split; [now apply list_elem_of_In|].
        apply magical_views_spec. now exists card.
  - intros method []; reflexivity.
  - intros w. split; reflexivity.
Qed.

(** ** C9: bundlers *)

Lemma append_cancel_r (s a b : string) : (a ++ s = b ++ s)%string -> a = b.
Proof.
  revert b. induction a as [|x a IH]; intros [|y b] Heq.
  - reflexivity.
  - apply (f_equal String.length) in Heq.
    rewrite !length_append in Heq. cbn in Heq. lia.
  - apply (f_equal String.length) in Heq.
    rewrite !length_append in Heq. cbn in Heq. lia.
  - cbn in Heq. injection Heq as -> Heq. f_equal. now apply IH.
Qed.

Lemma bundle_name_inj (c c' : string) :
  ("build_" ++ c ++ "_bundle")%string = ("build_" ++ c' ++ "_bundle")%string -> c = c'.
Proof.
  cbn. intros Heq. injection Heq as Heq.
  exact (append_cancel_r "_bundle" c c' Heq).
Qed.

Lemma bundle_name_not_generic (c : string) :
  ("build_" ++ c ++ "_bundle")%string <> "build_bundle".
Proof.
  cbn. intros Heq. injection Heq as Heq.
  change (c ++ "_bundle" = "bundle")%string in Heq.
  apply (f_equal String.length) in Heq.
  rewrite length_append in Heq. cbn in Heq. lia.
Qed.

Lemma bundle_name_not_own (c : string) :
  existsb (String.eqb ("build_" ++ c ++ "_bundle")) Kule_methods = false.
Proof.
  assert (Hne : String.eqb ("build_" ++ c ++ "_bundle") "build_bundle" = false)
    by apply String.eqb_neq, bundle_name_not_generic.
  unfold Kule_methods. cbn [existsb].
  rewrite Hne. reflexivity.
Qed.

(** C9.  The transform of the detail and list responses of a collection is
    [get_bundler]: the method named [build_<collection>_bundle] when the
    instance has one, otherwise [build_bundle], which for the class itself
    returns the document as it is, with every field.  Defining a bundler for
    one collection changes the bundler of that collection only. *)
Theorem bundler_resolution (self : Kule) (c : string) :
  (forall f, subclass self !! ("build_" ++ c ++ "_bundle")%string = Some f ->
             get_bundler self {| name := c |} = f) /\
  (subclass self !! ("build_" ++ c ++ "_bundle")%string = None ->
   subclass self !! "build_bundle" = None ->
   get_bundler self {| name := c |} = build_bundle) /\
  (forall d, build_bundle d = VObj d) /\
  (forall f,
      get_bundler (define_method self ("build_" ++ c ++ "_bundle") f) {| name := c |} = f) /\
  (forall f c', c' <> c ->
      get_bundler (define_method self ("build_" ++ c ++ "_bundle") f) {| name := c' |} =
      get_bundler self {| name := c' |}) /\
  (forall pk oid d w,
      denied self c = false -> valid_name c = true ->
      ObjectId pk = Some oid ->
      head (List.filter (has_id (VOid oid)) (documents w {| name := c |})) = Some d ->
      get_detail self c pk w =
      (Return (jsonify (get_bundler self {| name := c |} d)), w)) /\
  (forall req q w,
      denied self c = false -> valid_name c = true ->
      requested_filter req = Some q ->
      let limit_ := int_or_default (formsdict_attr "limit" (query req)) 20 in
      let offset := int_or_default (formsdict_attr "offset" (query req)) 0 in
      let selected := List.filter (matches q) (documents w {| name := c |}) in
      0 <= offset -> int32 offset = true -> int32 limit_ = true ->
      exists meta,
        get_list self c req w =
        (Return (jsonify (VObj
           {[ "meta" := meta;
              "objects" := VArr (map (get_bundler self {| name := c |})
                                   (limited limit_ (drop (Z.to_nat offset) selected))) ]})),
         w)).
Proof.
  split; [|split; [|split; [|split; [|split; [|split]]]]].
  - intros f Hf. unfold get_bundler. cbn [name]. now rewrite Hf.
  - intros Hnone Hgen. unfold get_bundler, self_build_bundle. cbn [name].
    now rewrite Hnone, Hgen.
  - reflexivity.
  - intros f. unfold get_bundler, define_method. cbn [name subclass].
    now rewrite lookup_insert_eq.
  - intros f c' Hne. unfold get_bundler, self_build_bundle, define_method.
    cbn [name subclass].
    rewrite !lookup_insert_ne; [reflexivity | apply bundle_name_not_generic |].
    intros Heq. apply bundle_name_inj in Heq. congruence.
  - intros pk oid d w. apply get_detail_found.
  - intros req q w Hd Hv Hq limit_ offset selected Hoff Hoff32 Hlim32.
    eexists. now apply get_list_returns.
Qed.

(** ** Where a handler ends *)

Lemma ends_bind {A B} (m : M A) (k : A -> M B) (f g : Z -> Z) (codes : list Z) :
  ends m f codes -> (forall a, ends (k a) g codes) ->
  ends (bind m k) (fun z => g (f z)) codes.
Proof.
  intros Hm Hk w. unfold bind. specialize (Hm w).
  destruct (m w) as [[a | code | e] w']; [|assumption..].
  specialize (Hk a w'). destruct (k a w') as [[b | code | e] w'']; [|assumption..].
  congruence.
Qed.

Lemma ends_weaken {A} (m : M A) (f : Z -> Z) (codes codes' : list Z) :
  ends m f codes -> incl codes codes' -> ends m f codes'.
Proof.
  intros Hm Hincl w. specialize (Hm w).
  destruct (m w) as [[a | code | e] w']; auto.
Qed.

Lemma ends_ext {A} (m : M A) (f g : Z -> Z) (codes : list Z) :
  ends m f codes -> (forall z, f z = g z) -> ends m g codes.
Proof.
  intros Hm Hfg w. specialize (Hm w).
  destruct (m w) as [[a | code | e] w']; auto. congruence.
Qed.

Lemma steady_bind {A B} (m : M A) (k : A -> M B) :
  steady m -> (forall a, steady (k a)) -> steady (bind m k).
Proof. intros Hm Hk. exact (ends_bind m k _ _ _ Hm Hk). Qed.

Lemma steady_ret {A} (a : A) : steady (ret a).
Proof. intros w. reflexivity. Qed.

Lemma steady_raise {A} (e : exn) : steady (raise (A := A) e).
Proof. intros w. exact I. Qed.

Lemma steady_getitem (c : string) : steady (getitem c).
Proof. unfold getitem. destruct (valid_name c); [apply steady_ret | apply steady_raise]. Qed.

Lemma steady_to_ObjectId (pk : string) : steady (to_ObjectId pk).
Proof. unfold to_ObjectId. destruct (ObjectId pk); [apply steady_ret | apply steady_raise]. Qed.

Lemma steady_find_one (c : Collection) (oid : string) : steady (find_one c oid).
Proof. intros w. reflexivity. Qed.

Lemma steady_find (c : Collection) (spec : value) : steady (find c spec).
Proof. destruct spec; first [apply steady_ret | apply steady_raise]. Qed.

Lemma steady_count (cur : Cursor) : steady (count cur).
Proof. intros w. reflexivity. Qed.

Lemma steady_skip (cur : Cursor) (n : Z) : steady (skip cur n).
Proof. unfold skip. destruct (n <? 0); [apply steady_raise | apply steady_ret]. Qed.

Lemma steady_limit (cur : Cursor) (n : Z) : steady (limit cur n).
Proof. apply steady_ret. Qed.

Lemma steady_fetch (cur : Cursor) : steady (fetch cur).
Proof.
  unfold fetch. destruct (int32 (cursor_skip cur) && int32 (cursor_limit cur));
    [intros w; reflexivity | apply steady_raise].
Qed.

Lemma steady_get_query (req : request) : steady (get_query req).
Proof.
  unfold get_query. destruct (multidict_get "query" (query req)) as [q|];
    [|apply steady_ret].
  destruct (negb (String.eqb q "")); [|apply steady_ret].
  destruct (json_loads q); [apply steady_ret | apply steady_raise].
Qed.

Lemma steady_assign_ids (ds : list document) : steady (assign_ids ds).
Proof.
  induction ds as [|d ds IH]; cbn [assign_ids]; [apply steady_ret|].
  apply steady_bind.
  - intros w. unfold assign_id. destruct (d !! "_id"); reflexivity.
  - intros d'. apply steady_bind; [exact IH | intros r; apply steady_ret].
Qed.

Lemma steady_insert_documents (c : Collection) (ds : list document) :
  steady (insert_documents c ds).
Proof.
  unfold insert_documents. apply steady_bind; [apply steady_assign_ids|].
  intros ds'. destruct (forallb storable ds'); [|apply steady_raise].
  apply steady_bind; [intros w; reflexivity|].
  intros w0. apply steady_bind; [intros w; reflexivity|].
  intros _. apply steady_ret.
Qed.

Lemma steady_insert (c : Collection) (v : value) : steady (insert c v).
Proof.
  unfold insert. destruct v as [| | | | |l|d]; try apply steady_raise.
  - destruct l as [|v l]; [apply steady_raise|].
    destruct (as_documents (v :: l)); [|apply steady_raise].
    apply steady_bind; [apply steady_insert_documents | intros ids; apply steady_ret].
  - apply steady_bind; [apply steady_insert_documents | intros ids; apply steady_ret].
Qed.

Lemma steady_update (c : Collection) (oid : string) (v : value) : steady (update c oid v).
Proof.
  unfold update. destruct v as [| | | | | |u]; try apply steady_raise.
  destruct (replacement u && negb (storable u));
    [apply steady_raise | intros w; reflexivity].
Qed.

Lemma steady_remove (c : Collection) (oid : string) : steady (remove c oid).
Proof. intros w. reflexivity. Qed.

Lemma ends_set_status {A} (code : Z) (m : M A) (f : Z -> Z) (codes : list Z) :
  ends m f codes -> ends (set_status code;;; m) (fun _ => f code) codes.
Proof.
  intros Hm w. unfold bind, set_status. cbn.
  specialize (Hm (World (database w) (oid_seq w) code)).
  destruct (m _) as [[a | c | e] w']; auto.
Qed.

Lemma ends_get_collection (self : Kule) (c : string) :
  ends (get_collection self c) (fun z => z) [403].
Proof.
  unfold get_collection. destruct (denied self c).
  - intros w. cbn. auto.
  - eapply ends_weaken; [apply steady_getitem | intros ? []].
Qed.

(** After the whitelist check, [k] runs on the collection. *)
Lemma ends_after_gate {A} (self : Kule) (c : string) (k : Collection -> M A)
    (f : Z -> Z) (codes : list Z) :
  In 403 codes ->
  (forall coll, ends (k coll) f codes) ->
  ends (bind (get_collection self c) k) f codes.
Proof.
  intros H403 Hk.
  eapply ends_ext; [eapply ends_bind; [|exact Hk]|reflexivity].
  eapply ends_weaken; [apply ends_get_collection|].
  intros code [<-|[]]. exact H403.
Qed.

Lemma ends_steady_bind {A B} (m : M A) (k : A -> M B) (f : Z -> Z) (codes : list Z) :
  steady m -> (forall a, ends (k a) f codes) -> ends (bind m k) f codes.
Proof.
  intros Hm Hk.
  eapply ends_ext; [eapply ends_bind; [|exact Hk]|reflexivity].
  eapply ends_weaken; [exact Hm | intros ? []].
Qed.

Lemma ends_ret {A} (a : A) (codes : list Z) : ends (ret a) (fun z => z) codes.
Proof. intros w. reflexivity. Qed.

Lemma ends_get_detail (self : Kule) (c pk : string) :
  ends (get_detail self c pk) (fun z => z) [403; 404].
Proof.
  unfold get_detail. apply ends_after_gate; [cbn; auto|]. intros coll.
  apply ends_steady_bind; [apply steady_to_ObjectId|]. intros oid.
  apply ends_steady_bind; [apply steady_find_one|]. intros found.
  eapply ends_ext; [eapply ends_bind; [|intros d; apply ends_ret]|reflexivity].
  destruct found as [d|]; [destruct (truthy (VObj d))|];
    first [apply ends_ret | intros w; cbn; auto].
Qed.

Lemma ends_get_list (self : Kule) (c : string) (req : request) :
  ends (get_list self c req) (fun z => z) [403].
Proof.
  unfold get_list. apply ends_after_gate; [cbn; auto|]. intros coll.
  apply ends_steady_bind; [apply steady_get_query|]. intros q.
  apply ends_steady_bind; [apply steady_find|]. intros cur.
  apply ends_steady_bind; [apply steady_count|]. intros total.
  apply ends_steady_bind; [apply steady_skip|]. intros cur1.
  apply ends_steady_bind; [apply steady_limit|]. intros cur2.
  apply ends_steady_bind; [apply steady_fetch|]. intros objects.
  apply ends_ret.
Qed.

Lemma ends_post_list (self : Kule) (c : string) (req : request) :
  ends (post_list self c req) (fun _ => 201) [403].
Proof.
  unfold post_list. apply ends_after_gate; [cbn; auto|]. intros coll.
  apply ends_steady_bind; [apply steady_insert|]. intros inserted.
  apply (ends_set_status 201 _ (fun z => z)), ends_ret.
Qed.

Lemma ends_put_detail (self : Kule) (c pk : string) (req : request) :
  ends (put_detail self c pk req) (fun _ => 202) [403].
Proof.
  unfold put_detail. apply ends_after_gate; [cbn; auto|]. intros coll.
  apply ends_steady_bind; [apply steady_to_ObjectId|]. intros oid.
  apply ends_steady_bind; [apply steady_update|]. intros _.
  apply (ends_set_status 202 _ (fun z => z)), ends_ret.
Qed.

Lemma ends_patch_detail (self : Kule) (c pk : string) (req : request) :
  ends (patch_detail self c pk req) (fun _ => 202) [403; 404].
Proof.
  unfold patch_detail. apply ends_after_gate; [cbn; auto|]. intros coll.
  apply ends_steady_bind; [apply steady_to_ObjectId|]. intros oid.
  apply ends_steady_bind; [apply steady_update|]. intros _.
  apply (ends_set_status 202 _ (fun z => z)), ends_get_detail.
Qed.

Lemma ends_delete_detail (self : Kule) (c pk : string) :
  ends (delete_detail self c pk) (fun _ => 204) [403].
Proof.
  unfold delete_detail. apply ends_after_gate; [cbn; auto|]. intros coll.
  apply ends_steady_bind; [apply steady_to_ObjectId|]. intros oid.
  apply ends_steady_bind; [apply steady_remove|]. intros _.
  apply (ends_set_status 204 _ (fun z => z)), ends_ret.
Qed.

Lemma handle_ends (m : M body) (f : Z -> Z) (codes : list Z) (w : world) :
  ends m f codes ->
  f 200 < 400 ->
  (forall code, In code codes -> is_Some (get_error_handler code)) ->
  In (status (fst (handle m w))) (f 200 :: 500 :: codes) /\
  (400 <= status (fst (handle m w)) ->
   exists message,
     get_error_handler (status (fst (handle m w))) = Some message /\
     content (fst (handle m w)) = error message (status (fst (handle m w)))).
Proof.
  intros Hm Hok Htable. unfold handle.
  specialize (Hm (World (database w) (oid_seq w) 200)).
  destruct (m _) as [[b | code | e] w']; cbn [fst snd answer].
  - cbn in Hm. cbn [status]. rewrite Hm. split; [now left | lia].
  - destruct (Htable code Hm) as [message Hmessage].
    unfold error_response. rewrite Hmessage. cbn [status content].
    split; [right; right; exact Hm | intros _; now exists message].
  - cbn. split; [auto | intros _; now eexists].
Qed.

(** A request on a generic path, served by the class's own code, is
    answered with one of the statuses of its method and cardinality (never
    400, never 405); an answer of 400 or above carries the JSON error body
    [{error: status, message: text}] of the error table. *)
Theorem served_statuses (self : Kule) (method : verb) (card : cardinality)
    (c pk : string) (req : request) (m : M body) (w : world) :
  serve self method card c pk req = Some m ->
  In (status (fst (handle m w))) (possible_statuses method card) /\
  (400 <= status (fst (handle m w)) ->
   exists message,
     get_error_handler (status (fst (handle m w))) = Some message /\
     content (fst (handle m w)) = error message (status (fst (handle m w)))).
Proof.
  intros Hserve. apply serve_own in Hserve.
  assert (Hfrom : forall f codes,
             ends m f codes -> f 200 < 400 ->
             (forall code, In code codes -> In code [403; 404]) ->
             incl (f 200 :: 500 :: codes) (possible_statuses method card) ->
             In (status (fst (handle m w))) (possible_statuses method card) /\
             (400 <= status (fst (handle m w)) ->
              exists message,
                get_error_handler (status (fst (handle m w))) = Some message /\
                content (fst (handle m w)) =
                  error message (status (fst (handle m w))))).
  { intros f codes Hends Hok Hcodes Hincl.
    destruct (handle_ends m f codes w Hends Hok) as [Hin Herr].
    - intros code Hcode. apply Hcodes in Hcode.
      destruct Hcode as [<-|[<-|[]]]; now eexists.
    - split; [apply Hincl, Hin | exact Herr]. }
  destruct method, card; simpl in Hserve; rewrite Hserve in Hfrom |- *;
    try (split; [cbn; auto | intros _; now eexists]).
  - apply (Hfrom _ _ (ends_get_list self c req)); [lia | cbn; tauto |].
    intros z Hz. cbn in Hz |- *. tauto.
  - apply (Hfrom _ _ (ends_get_detail self c pk)); [lia | cbn; tauto |].
    intros z Hz. cbn in Hz |- *. tauto.
  - apply (Hfrom _ _ (ends_post_list self c req)); [lia | cbn; tauto |].
    intros z Hz. cbn in Hz |- *. tauto.
  - apply (Hfrom _ _ (ends_put_detail self c pk req)); [lia | cbn; tauto |].
    intros z Hz. cbn in Hz |- *. tauto.
  - apply (Hfrom _ _ (ends_patch_detail self c pk req)); [lia | cbn; tauto |].
    intros z Hz. cbn in Hz |- *. tauto.
  - apply (Hfrom _ _ (ends_delete_detail self c pk)); [lia | cbn; tauto |].
    intros z Hz. cbn in Hz |- *. tauto.
Qed.

(** ** What a handler leaves alone *)

Lemma reads_bind {A B} (m : M A) (k : A -> M B) :
  reads m -> (forall a, reads (k a)) -> reads (bind m k).
Proof.
  intros Hm Hk w. unfold bind. specialize (Hm w).
  destruct (m w) as [[a | code | e] w']; cbn in Hm |- *; subst w'; [|reflexivity..].
  apply Hk.
Qed.

Lemma reads_ret {A} (a : A) : reads (ret a).
Proof. intros w. reflexivity. Qed.

Lemma reads_get_collection (self : Kule) (c : string) : reads (get_collection self c).
Proof.
  intros w. unfold get_collection, getitem.
  destruct (denied self c); [reflexivity|]. now destruct (valid_name c).
Qed.

Lemma reads_to_ObjectId (pk : string) : reads (to_ObjectId pk).
Proof. intros w. unfold to_ObjectId. now destruct (ObjectId pk). Qed.

Lemma reads_get_query (req : request) : reads (get_query req).
Proof.
  intros w. unfold get_query.
  destruct (multidict_get "query" (query req)) as [q|]; [|reflexivity].
  destruct (negb (String.eqb q "")); [|reflexivity]. now destruct (json_loads q).
Qed.

Lemma reads_get_detail (self : Kule) (c pk : string) : reads (get_detail self c pk).
Proof.
  unfold get_detail.
  apply reads_bind; [apply reads_get_collection|]. intros coll.
  apply reads_bind; [apply reads_to_ObjectId|]. intros oid.
  apply reads_bind; [intros w; reflexivity|]. intros found.
  apply reads_bind; [|intros d; apply reads_ret].
  intros w. destruct found as [d|]; [destruct (truthy (VObj d))|]; reflexivity.
Qed.

Lemma reads_get_list (self : Kule) (c : string) (req : request) :
  reads (get_list self c req).
Proof.
  unfold get_list.
  apply reads_bind; [apply reads_get_collection|]. intros coll.
  apply reads_bind; [apply reads_get_query|]. intros q.
  apply reads_bind; [intros w; now destruct q|]. intros cur.
  apply reads_bind; [intros w; reflexivity|]. intros total.
  apply reads_bind; [intros w; unfold skip; now destruct (_ <? 0)|]. intros cur1.
  apply reads_bind; [intros w; reflexivity|]. intros cur2.
  apply reads_bind; [|intros objects; apply reads_ret].
  intros w. unfold fetch. now destruct (_ && _).
Qed.

(** A GET on a generic path, whether it succeeds, aborts or fails, leaves
    the database and the id generator as they were. *)
Theorem get_changes_nothing (self : Kule) (card : cardinality) (c pk : string)
    (req : request) (m : M body) (w : world) :
  serve self GET card c pk req = Some m ->
  snd (m w) = w /\
  database (snd (handle m w)) = database w /\
  oid_seq (snd (handle m w)) = oid_seq w.
Proof.
  intros Hserve. apply serve_own in Hserve.
  assert (Hreads : reads m).
  { destruct card; simpl in Hserve; rewrite Hserve;
      [apply reads_get_list | apply reads_get_detail]. }
  split; [apply Hreads|]. unfold handle. cbn [snd]. now rewrite Hreads.
Qed.

Lemma confined_bind {A B} (c : string) (m : M A) (k : A -> M B) :
  confined c m -> (forall a, confined c (k a)) -> confined c (bind m k).
Proof.
  intros Hm Hk w c' Hne. unfold bind. specialize (Hm w c' Hne).
  destruct (m w) as [[a | code | e] w']; cbn in Hm |- *; [|assumption..].
  now rewrite (Hk a w' c' Hne).
Qed.

Lemma reads_confined {A} (c : string) (m : M A) : reads m -> confined c m.
Proof. intros Hm w c' _. now rewrite Hm. Qed.

Lemma confined_set_status (c : string) (code : Z) : confined c (set_status code).
Proof. intros w c' _. reflexivity. Qed.

Lemma confined_assign_ids (c : string) (ds : list document) : confined c (assign_ids ds).
Proof.
  induction ds as [|d ds IH]; cbn [assign_ids]; [apply reads_confined, reads_ret|].
  apply confined_bind.
  - intros w c' _. unfold assign_id. now destruct (d !! "_id").
  - intros d'. apply confined_bind; [exact IH|].
    intros r. apply reads_confined, reads_ret.
Qed.

Lemma confined_insert (coll : Collection) (v : value) :
  confined (name coll) (insert coll v).
Proof.
  assert (Hdocs : forall ds, confined (name coll) (insert_documents coll ds)).
  { intros ds. unfold insert_documents.
    apply confined_bind; [apply confined_assign_ids|]. intros ds'.
    destruct (forallb storable ds'); [|intros w c' _; reflexivity].
    apply confined_bind; [intros w c' _; reflexivity|]. intros w0.
    apply confined_bind; [|intros _; apply reads_confined, reads_ret].
    intros w c' Hne. cbn. now rewrite lookup_insert_ne. }
  unfold insert. destruct v as [| | | | |l|d]; try (intros w c' _; reflexivity).
  - destruct l as [|v l]; [intros w c' _; reflexivity|].
    destruct (as_documents (v :: l)); [|intros w c' _; reflexivity].
    apply confined_bind; [apply Hdocs | intros ids; apply reads_confined, reads_ret].
  - apply confined_bind; [apply Hdocs | intros ids; apply reads_confined, reads_ret].
Qed.

Lemma confined_update (coll : Collection) (oid : string) (v : value) :
  confined (name coll) (update coll oid v).
Proof.
  unfold update. destruct v as [| | | | | |u]; try (intros w c' _; reflexivity).
  destruct (replacement u && negb (storable u)); [intros w c' _; reflexivity|].
  intros w c' Hne. cbn. now rewrite lookup_alter_ne.
Qed.

Lemma confined_remove (coll : Collection) (oid : string) :
  confined (name coll) (remove coll oid).
Proof. intros w c' Hne. cbn. now rewrite lookup_alter_ne. Qed.

Lemma confined_after_gate {A} (self : Kule) (c : string) (k : Collection -> M A) :
  confined c (k {| name := c |}) -> confined c (bind (get_collection self c) k).
Proof.
  intros Hk w c' Hne. unfold bind, get_collection, getitem.
  destruct (denied self c); [reflexivity|].
  destruct (valid_name c); [|reflexivity]. now apply Hk.
Qed.

(** A request on a generic path for one collection, whatever its outcome,
    leaves the documents of every other collection as they were. *)
Theorem other_collections_untouched (self : Kule) (method : verb) (card : cardinality)
    (c pk : string) (req : request) (m : M body) (w : world) (c' : string) :
  serve self method card c pk req = Some m ->
  c' <> c ->
  database (snd (handle m w)) !! c' = database w !! c'.
Proof.
  intros Hserve Hne. apply serve_own in Hserve.
  assert (Hconfined : confined c m).
  { destruct method, card; simpl in Hserve; rewrite Hserve;
      try (intros w0 c0 _; reflexivity).
    - apply reads_confined, reads_get_list.
    - apply reads_confined, reads_get_detail.
    - unfold post_list. apply confined_after_gate.
      apply confined_bind; [apply (confined_insert {| name := c |})|]. intros i.
      apply confined_bind; [apply confined_set_status|].
      intros _. apply reads_confined, reads_ret.
    - unfold put_detail. apply confined_after_gate.
      apply confined_bind; [apply reads_confined, reads_to_ObjectId|]. intros oid.
      apply confined_bind; [apply (confined_update {| name := c |})|]. intros _.
      apply confined_bind; [apply confined_set_status|].
      intros _. apply reads_confined, reads_ret.
    - unfold patch_detail. apply confined_after_gate.
      apply confined_bind; [apply reads_confined, reads_to_ObjectId|]. intros oid.
      apply confined_bind; [apply (confined_update {| name := c |})|]. intros _.
      apply confined_bind; [apply confined_set_status|].
      intros _. apply reads_confined, reads_get_detail.
    - unfold delete_detail. apply confined_after_gate.
      apply confined_bind; [apply reads_confined, reads_to_ObjectId|]. intros oid.
      apply confined_bind; [apply (confined_remove {| name := c |})|]. intros _.
      apply confined_bind; [apply confined_set_status|].
      intros _. apply reads_confined, reads_ret. }
  unfold handle. cbn [snd].
  apply (Hconfined (World (database w) (oid_seq w) 200) c' Hne).
Qed.

(** ** PUT *)

Lemma has_id_oid (oid : string) (d : document) :
  has_id (VOid oid) d = true -> d !! "_id" = Some (VOid oid).
Proof.
  unfold has_id. destruct (d !! "_id") as [[]|]; cbn; try discriminate.
  intros Heq. apply String.eqb_eq in Heq. now subst.
Qed.

Lemma update_first_none (f : document -> document) (i : value) (docs : list document) :
  existsb (has_id i) docs = false -> update_first f i docs = docs.
Proof.
  induction docs as [|d docs IH]; cbn; [reflexivity|].
  intros Hnone. apply orb_false_iff in Hnone as [Hd Hdocs].
  rewrite Hd. now rewrite IH.
Qed.

Lemma alter_update_first_none (f : document -> document) (oid : string)
    (c : string) (w : world) :
  existsb (has_id (VOid oid)) (documents w {| name := c |}) = false ->
  alter (update_first f (VOid oid)) c (database w) = database w.
Proof.
  intros Hnone. apply alter_id. intros docs Hdocs.
  apply update_first_none.
  unfold documents in Hnone. cbn in Hnone. now rewrite Hdocs in Hnone.
Qed.

Lemma put_detail_returns (self : Kule) (c pk oid : string) (u : document)
    (req : request) (w : world) :
  denied self c = false -> valid_name c = true ->
  ObjectId pk = Some oid ->
  json req = VObj u ->
  replacement u && negb (storable u) = false ->
  put_detail self c pk req w =
  (Return (jsonify (VObj u)),
   World (alter (update_first (updated u) (VOid oid)) c (database w)) (oid_seq w) 202).
Proof.
  intros Hd Hv Hpk Hjson Hok. unfold put_detail.
  erewrite bind_Return by (apply get_collection_permitted; eassumption).
  erewrite bind_Return by (apply to_ObjectId_valid; eassumption).
  rewrite Hjson. unfold update. rewrite Hok. reflexivity.
Qed.

(** PUT with a document body on a well-formed pk that no document carries
    answers 202 and echoes the body all the same, but stores nothing: there
    is no upsert and no Not Found, and a GET detail that follows answers
    404. *)
Theorem put_missing (self : Kule) (c pk oid : string) (u : document)
    (req : request) (w : world) :
  denied self c = false -> valid_name c = true ->
  ObjectId pk = Some oid ->
  json req = VObj u ->
  replacement u && negb (storable u) = false ->
  existsb (has_id (VOid oid)) (documents w {| name := c |}) = false ->
  let put := handle (put_detail self c pk req) w in
  fst put = Response 202 (jsonify (VObj u)) /\
  database (snd put) = database w /\
  fst (handle (get_detail self c pk) (snd put)) =
    Response 404 (error "Document Not Found." 404).
Proof.
  intros Hd Hv Hpk Hjson Hok Hnone put.
  assert (Hput : put = (Response 202 (jsonify (VObj u)),
                        World (database w) (oid_seq w) 202)).
  { unfold put, handle.
    erewrite put_detail_returns by eassumption. cbn [fst snd answer database oid_seq].
    now rewrite alter_update_first_none. }
  rewrite Hput. cbn [fst snd]. repeat split.
  unfold handle. cbn [database oid_seq].
  erewrite get_detail_missing; [reflexivity|eassumption..|].
  change (documents (World (database w) (oid_seq w) 200) {| name := c |})
    with (documents w {| name := c |}).
  now rewrite (filter_none _ _ Hnone).
Qed.

(** PUT with a body of plain fields on a stored document replaces the whole
    document: what is stored afterwards is the body with the old [_id], so a
    field the body does not name is gone.  The PUT answers 202 with the body
    as sent, and a GET detail that follows answers 200 with the bundled new
    document. *)
Theorem put_replaces (self : Kule) (c pk oid : string) (u d : document)
    (req : request) (w : world) :
  denied self c = false -> valid_name c = true ->
  ObjectId pk = Some oid ->
  json req = VObj u ->
  replacement u = true -> storable u = true -> u !! "_id" = None ->
  head (List.filter (has_id (VOid oid)) (documents w {| name := c |})) = Some d ->
  let put := handle (put_detail self c pk req) w in
  let stored := <["_id" := VOid oid]> u in
  fst put = Response 202 (jsonify (VObj u)) /\
  fst (handle (get_detail self c pk) (snd put)) =
    Response 200 (jsonify (get_bundler self {| name := c |} stored)) /\
  (forall k, k <> "_id" -> stored !! k = u !! k).
Proof.
  intros Hd Hv Hpk Hjson Hrep Hst Hnoid Hfound put stored.
  assert (Hold : d !! "_id" = Some (VOid oid))
    by (eapply has_id_oid, head_filter_Some, Hfound).
  assert (Hnew : updated u d = stored).
  { unfold updated. now rewrite Hrep, Hnoid, Hold. }
  set (db' := alter (update_first (updated u) (VOid oid)) c (database w)).
  assert (Hput : put = (Response 202 (jsonify (VObj u)), World db' (oid_seq w) 202)).
  { unfold put, handle.
    erewrite put_detail_returns; [reflexivity|eassumption..|].
    now rewrite Hrep, Hst. }
  rewrite Hput. cbn [fst snd]. split; [reflexivity|]. split.
  - unfold handle. cbn [database oid_seq].
    erewrite get_detail_found; [reflexivity|eassumption..|].
    unfold db'.
    rewrite (documents_alter _ _ _ (oid_seq w) _ (response_status w) {| name := c |})
      by reflexivity.
    rewrite <- Hnew.
    apply head_filter_update_first; [assumption|].
    rewrite Hnew. apply has_id_refl. unfold stored. apply lookup_insert_eq.
  - intros k Hk. unfold stored. now rewrite lookup_insert_ne.
Qed.

(** ** PATCH and DELETE, then GET *)

(** PATCH on a well-formed pk that no document carries stores nothing and
    is answered by the re-fetch with Not Found (404), whatever the body: the
    202 set before the re-fetch does not survive. *)
Theorem patch_missing (self : Kule) (c pk oid : string) (req : request) (w : world) :
  denied self c = false -> valid_name c = true ->
  ObjectId pk = Some oid ->
  existsb (has_id (VOid oid)) (documents w {| name := c |}) = false ->
  fst (handle (patch_detail self c pk req) w) =
    Response 404 (error "Document Not Found." 404) /\
  database (snd (handle (patch_detail self c pk req) w)) = database w.
Proof.
  intros Hd Hv Hpk Hnone.
  assert (Hpatch : forall st,
             patch_detail self c pk req (World (database w) (oid_seq w) st) =
             (Abort 404, World (database w) (oid_seq w) 202)).
  { intros st. unfold patch_detail.
    erewrite bind_Return by (apply get_collection_permitted; eassumption).
    erewrite bind_Return by (apply to_ObjectId_valid; eassumption).
    erewrite bind_Return by apply update_set_eq.
    erewrite bind_Return by reflexivity.
    cbn [name database oid_seq response_status].
    rewrite alter_update_first_none by exact Hnone.
    eapply get_detail_missing; try eassumption.
    change (documents (World (database w) (oid_seq w) 202) {| name := c |})
      with (documents w {| name := c |}).
    now rewrite (filter_none _ _ Hnone). }
  unfold handle. rewrite Hpatch. split; reflexivity.
Qed.

Lemma filter_other_id (oid oid' : string) (docs : list document) :
  oid' <> oid ->
  List.filter (has_id (VOid oid'))
    (List.filter (fun d => negb (has_id (VOid oid) d)) docs) =
  List.filter (has_id (VOid oid')) docs.
Proof.
  intros Hne. induction docs as [|d docs IH]; cbn; [reflexivity|].
  destruct (has_id (VOid oid) d) eqn:Hd; cbn.
  - apply has_id_oid in Hd.
    assert (Hd' : has_id (VOid oid') d = false).
    { unfold has_id. rewrite Hd. cbn. now apply String.eqb_neq. }
    now rewrite Hd'.
  - destruct (has_id (VOid oid') d); [now f_equal | assumption].
Qed.

Lemma filter_same_id (oid : string) (docs : list document) :
  List.filter (has_id (VOid oid))
    (List.filter (fun d => negb (has_id (VOid oid) d)) docs) = [].
Proof.
  induction docs as [|d docs IH]; cbn; [reflexivity|].
  destruct (has_id (VOid oid) d) eqn:Hd; cbn; [assumption|]. now rewrite Hd.
Qed.

(** The answer of GET detail depends on the world only through the document
    found under the id. *)
Lemma get_detail_same_found (self : Kule) (c pk oid : string) (w w' : world) :
  denied self c = false -> valid_name c = true ->
  ObjectId pk = Some oid ->
  head (List.filter (has_id (VOid oid)) (documents w {| name := c |})) =
  head (List.filter (has_id (VOid oid)) (documents w' {| name := c |})) ->
  fst (handle (get_detail self c pk) w) = fst (handle (get_detail self c pk) w').
Proof.
  intros Hd Hv Hpk Hsame. unfold handle.
  destruct (head (List.filter (has_id (VOid oid)) (documents w' {| name := c |})))
    as [d|] eqn:Hfound.
  - erewrite !get_detail_found; [reflexivity|eassumption..].
  - erewrite !get_detail_missing; [reflexivity|eassumption..].
Qed.

(** After a DELETE with a well-formed pk, GET detail with that pk answers
    Not Found (404), and GET detail with any other well-formed pk answers
    what it answered before the DELETE. *)
Theorem delete_then_detail (self : Kule) (c pk oid : string) (w : world) :
  denied self c = false -> valid_name c = true ->
  ObjectId pk = Some oid ->
  let after := snd (handle (delete_detail self c pk) w) in
  fst (handle (get_detail self c pk) after) =
    Response 404 (error "Document Not Found." 404) /\
  (forall pk' oid',
      ObjectId pk' = Some oid' -> oid' <> oid ->
      fst (handle (get_detail self c pk') after) =
      fst (handle (get_detail self c pk') w)).
Proof.
  intros Hd Hv Hpk after.
  assert (Hafter : documents after {| name := c |} =
                   List.filter (fun d => negb (has_id (VOid oid) d))
                     (documents w {| name := c |})).
  { unfold after, handle.
    erewrite delete_detail_returns by eassumption. cbn [snd].
    now rewrite (documents_alter _ _ _ (oid_seq w) _ (response_status w)
                   {| name := c |}). }
  split.
  - unfold handle.
    erewrite get_detail_missing; [reflexivity|eassumption..|].
    change (documents (World (database after) (oid_seq after) 200) {| name := c |})
      with (documents after {| name := c |}).
    now rewrite Hafter, filter_same_id.
  - intros pk' oid' Hpk' Hne.
    apply (get_detail_same_found self c pk' oid'); try assumption.
    now rewrite Hafter, filter_other_id.
Qed.

(** ** Bodies that are not documents *)

(** On a permitted collection, POST and PUT with a body that is neither a
    JSON object nor a list (no JSON body at all, a number, a string, a
    truth value) end in an uncaught exception: the answer is Internal
    Server Error (500) and the database is as it was. *)
Theorem body_not_a_document (self : Kule) (c pk : string) (req : request) (w : world) :
  denied self c = false ->
  as_document (json req) = None ->
  (forall l, json req <> VArr l) ->
  Forall (fun h : M body =>
            fst (handle h w) = Response 500 (error "Internal Server Error." 500) /\
            database (snd (handle h w)) = database w)
    [post_list self c req; put_detail self c pk req].
Proof.
  intros Hd Hdoc Hlist.
  assert (Hinsert : forall coll w', insert coll (json req) w' = (Raise TypeError, w')).
  { intros coll w'. unfold insert.
    destruct (json req) as [| | | | |l|u]; try reflexivity;
      [now destruct (Hlist l) | discriminate Hdoc]. }
  assert (Hupdate : forall coll oid w',
             update coll oid (json req) w' = (Raise TypeError, w')).
  { intros coll oid w'. unfold update.
    destruct (json req) as [| | | | |l|u]; try reflexivity. discriminate Hdoc. }
  apply Forall_cons. split; [|apply Forall_cons; split; [|apply Forall_nil; exact I]].
  - unfold handle, post_list, bind, get_collection, getitem. rewrite Hd.
    destruct (valid_name c); cbn; [|split; reflexivity].
    rewrite Hinsert. split; reflexivity.
  - unfold handle, put_detail, bind, get_collection, getitem, to_ObjectId. rewrite Hd.
    destruct (valid_name c); cbn; [|split; reflexivity].
    destruct (ObjectId pk); cbn; [|split; reflexivity].
    rewrite Hupdate. split; reflexivity.
Qed.

(** ** The routes of the class itself *)

Lemma substring_all (t : string) : substring 0 (String.length t) t = t.
Proof. induction t as [|a t IH]; cbn; [reflexivity | now rewrite IH]. Qed.

Lemma substring_append (c t : string) :
  substring (String.length c) (String.length t) (c ++ t) = t.
Proof. induction c as [|a c IH]; cbn; [apply substring_all | exact IH]. Qed.

(** A text that ends in [t] is not a name that ends otherwise. *)
Lemma append_neq_name (c t u : string) :
  (String.length u <? String.length t)%nat ||
  negb (String.eqb
          (substring (String.length u - String.length t) (String.length t) u) t) = true ->
  String.eqb (c ++ t) u = false.
Proof.
  intros Hcheck. apply String.eqb_neq. intros Heq.
  pose proof (substring_append c t) as Hsub.
  pose proof (length_append c t) as Hlen.
  rewrite Heq in Hsub, Hlen.
  apply orb_true_iff in Hcheck as [Hshort | Hdiff].
  - apply Nat.ltb_lt in Hshort. lia.
  - replace (String.length u - String.length t)%nat with (String.length c) in Hdiff by lia.
    rewrite Hsub, String.eqb_refl in Hdiff. discriminate.
Qed.

(** No method of the class has the name of a magical view. *)
Lemma magical_name_not_own (method : verb) (c : string) (card : cardinality) :
  existsb (String.eqb (lower method ++ "_" ++ c ++ suffix card)) Kule_methods = false.
Proof.
  destruct method, card; simpl;
    repeat match goal with
           | |- context [String.eqb (EmptyString ++ ?x) ?u] =>
               change (String.eqb (EmptyString ++ x) u) with (String.eqb x u)
           end;
    rewrite ?(append_neq_name c) by reflexivity; reflexivity.
Qed.

Lemma magical_views_none (self : Kule) (method : verb) (c : string) :
  subclass self = ∅ -> magical_views self method c = [].
Proof.
  intros Hsub. unfold magical_views, hasattr. rewrite Hsub, !lookup_empty.
  pose proof (magical_name_not_own method c Listing) as Hlist.
  pose proof (magical_name_not_own method c Detail) as Hdetail.
  cbn [suffix] in Hlist, Hdetail. rewrite Hlist, Hdetail.
  rewrite !bool_decide_eq_false_2 by (intros [? ?]; discriminate).
  reflexivity.
Qed.

(** For an instance of the class itself (no subclass methods) the route
    table is the ten generic routes, whatever the whitelist: a whitelisted
    collection gets no path of its own, because no method of the class has
    the name of a magical view. *)
Theorem plain_class_routes (self : Kule) :
  subclass self = ∅ ->
  dispatch_views self =
  [Route "/:collection" GET "get_list"; Route "/:collection/:pk" GET "get_detail";
   Route "/:collection" POST "post_list";
   Route "/:collection/:pk" POST "not_implemented";
   Route "/:collection" PUT "not_implemented"; Route "/:collection/:pk" PUT "put_detail";
   Route "/:collection" PATCH "not_implemented";
   Route "/:collection/:pk" PATCH "patch_detail";
   Route "/:collection" DELETE "not_implemented";
   Route "/:collection/:pk" DELETE "delete_detail"].
Proof.
  intros Hsub.
  assert (Hnone : forall method,
             flat_map (magical_views self method) (default [] (collections self)) = []).
  { intros method. induction (default [] (collections self)) as [|c l IH];
      cbn; [reflexivity|].
    now rewrite magical_views_none, IH. }
  unfold dispatch_views. cbn [flat_map]. rewrite !Hnone.
  unfold getattr, hasattr. rewrite Hsub, !lookup_empty. reflexivity.
Qed.

(** ** Creating, then listing *)

(** After a POST that stores a new document, the [total_count] of a list
    request on the collection is what it was before the POST, plus one
    exactly when the filter of the request matches the new document. *)
Theorem create_then_list (self : Kule) (c : string) (d q : document)
    (req req' : request) (w : world) :
  denied self c = false -> valid_name c = true ->
  json req = VObj d -> d !! "_id" = None ->
  storable (<["_id" := VOid (new_oid (oid_seq w))]> d) = true ->
  existsb (has_id (VOid (new_oid (oid_seq w)))) (documents w {| name := c |}) = false ->
  requested_filter req' = Some q ->
  let limit_ := int_or_default (formsdict_attr "limit" (query req')) 20 in
  let offset := int_or_default (formsdict_attr "offset" (query req')) 0 in
  0 <= offset -> int32 offset = true -> int32 limit_ = true ->
  let stored := <["_id" := VOid (new_oid (oid_seq w))]> d in
  exists before objects objects',
    fst (handle (get_list self c req') w) =
    Response 200 (jsonify (VObj
      {[ "meta" := VObj {[ "limit" := VInt limit_; "offset" := VInt offset;
                           "total_count" := VInt before ]};
         "objects" := VArr objects ]})) /\
    fst (handle (get_list self c req') (snd (handle (post_list self c req) w))) =
    Response 200 (jsonify (VObj
      {[ "meta" := VObj {[ "limit" := VInt limit_; "offset" := VInt offset;
                           "total_count" :=
                             VInt (before + (if matches q stored then 1 else 0)) ]};
         "objects" := VArr objects' ]})).
Proof.
  intros Hd Hv Hjson Hid Hst Hfresh Hq limit_ offset Hoff Hoff32 Hlim32 stored.
  set (selected := List.filter (matches q) (documents w {| name := c |})).
  exists (Z.of_nat (List.length selected)).
  exists (map (get_bundler self {| name := c |})
            (limited limit_ (drop (Z.to_nat offset) selected))).
  exists (map (get_bundler self {| name := c |})
            (limited limit_
               (drop (Z.to_nat offset)
                  (selected ++ (if matches q stored then [stored] else []))%list))).
  split.
  - unfold handle. erewrite get_list_returns by eassumption. reflexivity.
  - unfold handle at 2.
    erewrite post_list_fresh by (cbn; eassumption). cbn [snd].
    unfold handle. cbn [database oid_seq].
    erewrite get_list_returns by eassumption. cbn [fst answer response_status].
    rewrite (documents_insert _ _ _ {| name := c |}).
    rewrite List.filter_app, length_app, Nat2Z.inj_add. cbn [List.filter].
    fold stored.
    change (documents (World (database w) (oid_seq w) 200) {| name := c |})
      with (documents w {| name := c |}).
    fold selected. destruct (matches q stored); reflexivity.
Qed.

(** ** A query that is not a filter *)

(** On a permitted collection, a [query] parameter that decodes to a JSON
    value other than an object or [null] (a list, a number, a string, a
    truth value) is refused by the store's [find]: the list request ends in
    an uncaught [TypeError], is answered with Internal Server Error (500)
    and reads nothing. *)
Theorem query_not_a_filter (self : Kule) (c : string) (req : request)
    (text : string) (v : value) (w : world) :
  denied self c = false -> valid_name c = true ->
  multidict_get "query" (query req) = Some text ->
  String.eqb text "" = false ->
  json_loads text = Some v ->
  v <> VNull -> as_document v = None ->
  get_list self c req w = (Raise TypeError, w) /\
  fst (handle (get_list self c req) w) =
    Response 500 (error "Internal Server Error." 500).
Proof.
  intros Hd Hv Hq Hne Hjson Hnull Hdoc.
  assert (Hfail : forall w', get_list self c req w' = (Raise TypeError, w')).
  { intros w'. unfold get_list.
    erewrite bind_Return by (apply get_collection_permitted; eassumption).
    erewrite bind_Return
      by (unfold get_query; rewrite Hq, Hne, Hjson; reflexivity).
    apply bind_Raise. destruct v; try reflexivity; [congruence | discriminate]. }
  split; [apply Hfail|]. unfold handle. now rewrite Hfail.
Qed.

(** ** Repeating an update *)

Lemma update_first_twice (f : document -> document) (i : value) (docs : list document) :
  (forall d, has_id i d = true -> has_id i (f d) = true /\ f (f d) = f d) ->
  update_first f i (update_first f i docs) = update_first f i docs.
Proof.
  intros Hf. induction docs as [|d docs IH]; cbn; [reflexivity|].
  destruct (has_id i d) eqn:Hd; cbn.
  - destruct (Hf d Hd) as [Hkeep Hsame]. now rewrite Hkeep, Hsame.
  - now rewrite Hd, IH.
Qed.

Lemma patch_detail_returns (self : Kule) (c pk oid : string) (p d : document)
    (req : request) (w : world) :
  denied self c = false -> valid_name c = true ->
  ObjectId pk = Some oid ->
  json req = VObj p -> plain p = true ->
  head (List.filter (has_id (VOid oid)) (documents w {| name := c |})) = Some d ->
  patch_detail self c pk req w =
  (Return (jsonify (get_bundler self {| name := c |} (p ∪ d))),
   World (alter (update_first (fun d' => p ∪ d') (VOid oid)) c (database w))
         (oid_seq w) 202).
Proof.
  intros Hd Hv Hpk Hjson Hp Hfound.
  pose proof (plain_no_id p Hp) as Hnoid.
  assert (Hdb : alter (update_first (updated {["$set" := VObj p]}) (VOid oid)) c (database w)
                = alter (update_first (fun d' => p ∪ d') (VOid oid)) c (database w)).
  { apply alter_ext. intros docs _. apply update_first_ext.
    intros d'. now apply updated_set. }
  unfold patch_detail.
  erewrite bind_Return by (apply get_collection_permitted; eassumption).
  erewrite bind_Return by (apply to_ObjectId_valid; eassumption).
  rewrite Hjson.
  erewrite bind_Return by apply update_set_eq.
  erewrite bind_Return by reflexivity.
  cbn [name database oid_seq response_status]. rewrite Hdb.
  eapply get_detail_found; try eassumption.
  rewrite (documents_alter _ _ _ (oid_seq w) _ (response_status w) {| name := c |})
    by reflexivity.
  apply (head_filter_update_first (fun d' => p ∪ d')); [assumption|].
  rewrite has_id_union by assumption.
  eapply head_filter_Some, Hfound.
Qed.

(** PATCH is idempotent on a stored document: sending the same patch of
    plain fields again gives the same answer and leaves the world as the
    first PATCH left it. *)
Theorem patch_idempotent (self : Kule) (c pk oid : string) (p d : document)
    (req : request) (w : world) :
  denied self c = false -> valid_name c = true ->
  ObjectId pk = Some oid ->
  json req = VObj p -> plain p = true ->
  head (List.filter (has_id (VOid oid)) (documents w {| name := c |})) = Some d ->
  handle (patch_detail self c pk req) (snd (handle (patch_detail self c pk req) w)) =
  handle (patch_detail self c pk req) w.
Proof.
  intros Hd Hv Hpk Hjson Hp Hfound.
  pose proof (plain_no_id p Hp) as Hnoid.
  set (f := update_first (fun d' => p ∪ d') (VOid oid)).
  assert (Hfirst : handle (patch_detail self c pk req) w =
            (Response 202 (jsonify (get_bundler self {| name := c |} (p ∪ d))),
             World (alter f c (database w)) (oid_seq w) 202)).
  { unfold handle. erewrite patch_detail_returns by eassumption. reflexivity. }
  rewrite Hfirst. cbn [snd]. unfold handle. cbn [database oid_seq].
  erewrite (patch_detail_returns self c pk oid p (p ∪ d)); try eassumption.
  - cbn [fst snd answer response_status]. fold f.
    assert (Hsame : p ∪ (p ∪ d) = p ∪ d)
      by now rewrite (assoc_L (∪)), (idemp_L (∪)).
    rewrite Hsame. f_equal. f_equal.
    apply alter_twice. intros docs. apply update_first_twice.
    intros d' Hd'. split.
    + now rewrite has_id_union.
    + now rewrite (assoc_L (∪)), (idemp_L (∪)).
  - rewrite (documents_alter _ _ _ (oid_seq w) _ (response_status w) {| name := c |})
      by reflexivity.
    apply (head_filter_update_first (fun d' => p ∪ d')); [assumption|].
    rewrite has_id_union by assumption.
    eapply head_filter_Some, Hfound.
Qed.

(** PUT is idempotent: sending the same document body to the same
    well-formed pk again gives the same answer and leaves the world as the
    first PUT left it, whether or not a document carries the pk. *)
Theorem put_idempotent (self : Kule) (c pk oid : string) (u : document)
    (req : request) (w : world) :
  denied self c = false -> valid_name c = true ->
  ObjectId pk = Some oid ->
  json req = VObj u ->
  replacement u = true -> storable u = true -> u !! "_id" = None ->
  handle (put_detail self c pk req) (snd (handle (put_detail self c pk req) w)) =
  handle (put_detail self c pk req) w.
Proof.
  intros Hd Hv Hpk Hjson Hrep Hst Hnoid.
  assert (Hok : replacement u && negb (storable u) = false) by now rewrite Hrep, Hst.
  unfold handle.
  erewrite !put_detail_returns by eassumption.
  cbn [fst snd answer response_status database oid_seq].
  f_equal. f_equal.
  apply alter_twice. intros docs. apply update_first_twice.
  intros d Hid. apply has_id_oid in Hid.
  assert (Hnew : updated u d = <["_id" := VOid oid]> u)
    by (unfold updated; now rewrite Hrep, Hnoid, Hid).
  rewrite Hnew. split.
  - apply has_id_refl, lookup_insert_eq.
  - unfold updated. now rewrite Hrep, Hnoid, lookup_insert_eq.
Qed.

End Properties.

(** ** Start-up *)

Lemma split_commas_nonempty (s : string) : split_commas s <> [].
Proof.
  destruct s as [|c s]; cbn; [discriminate|].
  destruct (Ascii.eqb c ","); [discriminate|].
  destruct (split_commas s); discriminate.
Qed.

Lemma concat_cons_char (c : ascii) (x : string) (l : list string) :
  String.concat "," (String c x :: l) = String c (String.concat "," (x :: l)).
Proof. destruct l; reflexivity. Qed.

Lemma concat_split_commas (s : string) : String.concat "," (split_commas s) = s.
Proof.
  induction s as [|c s IH]; [reflexivity|]. cbn [split_commas].
  pose proof (split_commas_nonempty s) as Hne.
  destruct (split_commas s) as [|x l]; [contradiction|].
  destruct (Ascii.eqb_spec c ",") as [->|Hc].
  - change (String.concat "," ("" :: x :: l))
      with (String "," (String.concat "," (x :: l))).
    now rewrite IH.
  - now rewrite concat_cons_char, IH.
Qed.

Lemma split_commas_pieces (s piece : string) :
  In piece (split_commas s) -> contains "," piece = false.
Proof.
  revert piece. induction s as [|c s IH]; intros piece; cbn [split_commas].
  - intros [<-|[]]. reflexivity.
  - destruct (Ascii.eqb c ",") eqn:Hc.
    + intros [<-|Hin]; [reflexivity | now apply IH].
    + destruct (split_commas s) as [|x l]; cbn.
      * intros [<-|[]]. cbn. now rewrite Hc.
      * intros [<-|Hin]; [|apply IH; now right].
        cbn. rewrite Hc. apply IH. now left.
Qed.

(** The whitelist that [main] builds is the [--collections] text cut at its
    commas, so it is never empty: an instance started by [main] always
    enforces a whitelist.  A name is permitted exactly when it is one of the
    pieces, as written; without [--collections] the only piece is the empty
    name and every collection with a name is denied. *)
Theorem main_whitelist (o : options) (host : string) (p : port) (kule : Kule) :
  main o = Run host p kule ->
  exists pieces,
    collections kule = Some pieces /\
    pieces <> [] /\
    String.concat "," pieces = or_default (collections_option o) "" /\
    (forall piece, In piece pieces -> contains "," piece = false) /\
    (forall c, denied kule c = negb (existsb (String.eqb c) pieces)) /\
    (or_default (collections_option o) "" = "" ->
     forall c, denied kule c = negb (String.eqb c "")).
Proof.
  unfold main. destruct (String.eqb (or_default (database_name o) "") ""); [discriminate|].
  intros Hrun. injection Hrun as _ _ <-. cbn [collections].
  assert (Htext : default "" (collections_option o) =
                  or_default (collections_option o) "").
  { destruct (collections_option o) as [s|]; cbn; [|reflexivity].
    destruct (String.eqb_spec s ""); congruence. }
  exists (main_collections (collections_option o)). unfold main_collections.
  rewrite Htext.
  pose proof (split_commas_nonempty (or_default (collections_option o) "")) as Hne.
  split; [reflexivity|]. split; [exact Hne|].
  split; [apply concat_split_commas|].
  split; [intros piece; apply split_commas_pieces|].
  split.
  - intros c. unfold denied. cbn [collections].
    destruct (split_commas _); [contradiction | reflexivity].
  - intros Hnone c. rewrite Hnone. unfold denied. cbn. now rewrite orb_false_r.
Qed.

Lemma rsplit_colon_None (s : string) :
  rsplit_colon s = None <-> contains ":" s = false.
Proof.
  induction s as [|c s IH]; cbn; [tauto|].
  destruct (rsplit_colon s) as [[h t]|].
  - split; [discriminate|]. intros Hc. apply orb_false_iff in Hc as [_ Hs].
    apply IH in Hs. discriminate.
  - destruct (Ascii.eqb c ":"); cbn; [split; discriminate|].
    split; [intros _; now apply IH | reflexivity].
Qed.

Lemma rsplit_colon_Some (s h t : string) :
  rsplit_colon s = Some (h, t) ->
  (h ++ ":" ++ t)%string = s /\ contains ":" t = false.
Proof.
  revert h. induction s as [|c s IH]; intros h; cbn; [discriminate|].
  destruct (rsplit_colon s) as [[h' t']|] eqn:Hs.
  - intros Heq. injection Heq as <- <-.
    destruct (IH h' eq_refl) as [Hjoin Hfree].
    split; [now rewrite <- Hjoin | exact Hfree].
  - destruct (Ascii.eqb_spec c ":") as [->|_]; [|discriminate].
    intros Heq. injection Heq as <- <-. split; [reflexivity|].
    now apply rsplit_colon_None.
Qed.

Lemma contains_separator (c : ascii) (h t : string) :
  contains c (h ++ String c t) = true.
Proof.
  induction h as [|a h IH].
  - change (Ascii.eqb c c || contains c t = true).
    now rewrite Ascii.eqb_refl.
  - change (Ascii.eqb a c || contains c (h ++ String c t) = true).
    rewrite IH. apply orb_true_r.
Qed.

(** [main] binds the [--bind] text (or [localhost]) on port 8000 when the
    text has no colon; otherwise it cuts the text at its last colon: the
    host is what stands before it and the port is the text after it, kept
    as a text and free of colons. *)
Theorem main_address (o : options) (host : string) (p : port) (kule : Kule) :
  main o = Run host p kule ->
  let text := or_default (address o) "localhost" in
  (contains ":" text = false -> host = text /\ p = Port 8000) /\
  (contains ":" text = true ->
   exists t, p = PortText t /\ (host ++ ":" ++ t)%string = text /\
             contains ":" t = false).
Proof.
  unfold main. destruct (String.eqb (or_default (database_name o) "") ""); [discriminate|].
  intros Hrun. set (text := or_default (address o) "localhost") in *.
  destruct (rsplit_colon text) as [[h t]|] eqn:Hsplit;
    cbn in Hrun; injection Hrun as <- <- _.
  - apply rsplit_colon_Some in Hsplit as [Hjoin Hfree]. split.
    + intros Hnone.
      assert (Hsome : contains ":" text = true)
        by (rewrite <- Hjoin; apply (contains_separator ":" h t)).
      congruence.
    + intros _. now exists t.
  - apply rsplit_colon_None in Hsplit. split; [now split|].
    intros Hsome. congruence.
Qed.

(** * Examples

    The handlers run on the sample data, with the reference library. *)

#[local] Existing Instance reference.

Lemma whitelist_gate_witness :
  (serve public_only DELETE Detail "secret" "x" bare_request =
     Some (delete_detail public_only "secret" "x") /\
   denied public_only "secret" = true) /\
  delete_detail public_only "secret" "x" empty_world = (Abort 403, empty_world) /\
  fst (handle (delete_detail public_only "secret" "x") empty_world) =
    Response 403 (error "Forbidden." 403).
Proof.
  split; [split; reflexivity|].
  exact (proj1 (whitelist_gate (H := reference) public_only) DELETE Detail "secret" "x" bare_request
           (delete_detail public_only "secret" "x") empty_world eq_refl eq_refl).
Defined.

(** C1 as stated fails: PUT on the list path of a collection the whitelist
    denies is answered by [not_implemented] with 501, not with 403. *)
Lemma whitelist_gate_counterexample :
  denied public_only "secret" = true /\
  serve public_only PUT Listing "secret" "" bare_request = Some not_implemented /\
  fst (handle not_implemented empty_world) =
    Response 501 (error "Not Implemented." 501) /\
  status (fst (handle not_implemented empty_world)) <> 403.
Proof. repeat split. discriminate. Qed.

Lemma query_filter_witness :
  (denied plain_kule "things" = false /\ valid_name "things" = true /\
   multidict_get "query" (query (Request [("query", "not-json")] VNull)) =
     Some "not-json" /\
   String.eqb "not-json" "" = false /\ json_loads "not-json" = None) /\
  get_list plain_kule "things" (Request [("query", "not-json")] VNull) empty_world =
    (Raise ValueError, empty_world) /\
  fst (handle (get_list plain_kule "things" (Request [("query", "not-json")] VNull))
         empty_world) =
    Response 500 (error "Internal Server Error." 500).
Proof.
  split; [repeat split|].
  destruct (proj2 (query_filter (H := reference) plain_kule "things"
                     (Request [("query", "not-json")] VNull) empty_world
                     eq_refl eq_refl)
              "not-json" eq_refl eq_refl eq_refl) as (Hraise & Hanswer & _).
  exact (conj Hraise Hanswer).
Defined.

(** C2 as stated fails: [query=not-json] is answered with 500, not 400. *)
Lemma query_filter_counterexample :
  json_loads "not-json" = None /\
  fst (handle (get_list plain_kule "things" (Request [("query", "not-json")] VNull))
         empty_world) =
    Response 500 (error "Internal Server Error." 500) /\
  status (fst (handle (get_list plain_kule "things"
                         (Request [("query", "not-json")] VNull)) empty_world)) <> 400.
Proof. repeat split. discriminate. Qed.

Lemma malformed_pk_witness :
  (serve plain_kule GET Detail "things" "xyz" bare_request =
     Some (get_detail plain_kule "things" "xyz") /\
   own_handler GET Detail = true /\
   denied plain_kule "things" = false /\ valid_name "things" = true /\
   ObjectId "xyz" = None) /\
  get_detail plain_kule "things" "xyz" empty_world = (Raise InvalidId, empty_world) /\
  fst (handle (get_detail plain_kule "things" "xyz") empty_world) =
    Response 500 (error "Internal Server Error." 500).
Proof.
  split; [repeat split|].
  destruct (malformed_pk (H := reference) plain_kule GET "things" "xyz" bare_request
              (get_detail plain_kule "things" "xyz") empty_world
              eq_refl eq_refl eq_refl eq_refl eq_refl) as (Hraise & Hanswer & _).
  exact (conj Hraise Hanswer).
Defined.

(** C3 as stated fails: GET detail with the pk [xyz] is answered with 500,
    not 400. *)
Lemma malformed_pk_counterexample :
  ObjectId "xyz" = None /\
  fst (handle (get_detail plain_kule "things" "xyz") empty_world) =
    Response 500 (error "Internal Server Error." 500) /\
  status (fst (handle (get_detail plain_kule "things" "xyz") empty_world)) <> 400.
Proof. repeat split. discriminate. Qed.

Lemma create_then_detail_witness :
  (denied plain_kule "things" = false /\ valid_name "things" = true /\
   json post_a1 = VObj {[ "a" := VInt 1 ]} /\
   ({[ "a" := VInt 1 ]} : document) !! "_id" = None /\
   storable (<["_id" := VOid (new_oid 0)]> {[ "a" := VInt 1 ]}) = true /\
   existsb (has_id (VOid (new_oid 0))) (documents empty_world {| name := "things" |})
     = false) /\
  fst (handle (post_list plain_kule "things" post_a1) empty_world) =
    Response 201 (jsonify (VObj {[ "_id" := VOid (new_oid 0) ]})) /\
  fst (handle (get_detail plain_kule "things" (str_oid (new_oid 0)))
         (snd (handle (post_list plain_kule "things" post_a1) empty_world))) =
    Response 200 (jsonify (VObj {[ "_id" := VOid (new_oid 0); "a" := VInt 1 ]})).
Proof.
  split; [repeat split|].
  destruct (create_then_detail (H := reference) plain_kule "things"
              {[ "a" := VInt 1 ]} post_a1 empty_world
              eq_refl eq_refl eq_refl eq_refl eq_refl eq_refl)
    as (Hcreated & Hread & Hgeneric & _).
  rewrite (Hgeneric eq_refl) in Hread.
  exact (conj Hcreated Hread).
Defined.

Lemma list_envelope_witness :
  (denied plain_kule "things" = false /\ valid_name "things" = true /\
   requested_filter first_one = Some ∅ /\ requested_filter second_one = Some ∅ /\
   requested_filter negative_offset = Some ∅ /\
   int_or_default (formsdict_attr "offset" (query negative_offset)) 0 < 0) /\
  fst (handle (get_list plain_kule "things" first_one) world_two) =
    Response 200 (jsonify (VObj
      {[ "meta" := VObj {[ "limit" := VInt 1; "offset" := VInt 0;
                           "total_count" := VInt 2 ]};
         "objects" := VArr [VObj doc_ab] ]})) /\
  fst (handle (get_list plain_kule "things" second_one) world_two) =
    Response 200 (jsonify (VObj
      {[ "meta" := VObj {[ "limit" := VInt 1; "offset" := VInt 1;
                           "total_count" := VInt 2 ]};
         "objects" := VArr [VObj doc_cd] ]})) /\
  fst (handle (get_list plain_kule "things" negative_offset) world_two) =
    Response 500 (error "Internal Server Error." 500).
Proof.
  split; [repeat split|]. split; [|split].
  - exact (proj1 (list_envelope (H := reference) plain_kule "things" first_one world_two
                    eq_refl eq_refl)
             ∅ eq_refl ltac:(apply Z.leb_le; reflexivity) eq_refl eq_refl).
  - exact (proj1 (list_envelope (H := reference) plain_kule "things" second_one world_two
                    eq_refl eq_refl)
             ∅ eq_refl ltac:(apply Z.leb_le; reflexivity) eq_refl eq_refl).
  - exact (proj1 (proj2 (proj2 (list_envelope (H := reference) plain_kule "things"
                                  negative_offset world_two eq_refl eq_refl))
                    ∅ eq_refl (or_introl eq_refl))).
Defined.

(** C5 as stated fails: a list request with [offset=-1] on a permitted
    collection is answered with the error body of 500, not with an
    envelope. *)
Lemma list_envelope_counterexample :
  denied plain_kule "things" = false /\
  int_or_default (formsdict_attr "offset" (query negative_offset)) 0 = -1 /\
  fst (handle (get_list plain_kule "things" negative_offset) world_two) =
    Response 500 (error "Internal Server Error." 500) /\
  status (fst (handle (get_list plain_kule "things" negative_offset) world_two)) <> 200.
Proof. repeat split. discriminate. Qed.

Lemma patch_merges_witness :
  (denied plain_kule "things" = false /\ valid_name "things" = true /\
   ObjectId (str_oid (new_oid 7)) = Some (new_oid 7) /\
   json patch_a2 = VObj {[ "a" := VInt 2 ]} /\
   plain {[ "a" := VInt 2 ]} = true /\
   head (List.filter (has_id (VOid (new_oid 7)))
           (documents world_ab {| name := "things" |})) = Some doc_ab) /\
  fst (handle (patch_detail plain_kule "things" (str_oid (new_oid 7)) patch_a2) world_ab) =
    Response 202 (jsonify (VObj
      {[ "_id" := VOid (new_oid 7); "a" := VInt 2; "b" := VInt 3 ]})) /\
  fst (handle (get_detail plain_kule "things" (str_oid (new_oid 7)))
         (snd (handle (patch_detail plain_kule "things" (str_oid (new_oid 7)) patch_a2)
                 world_ab))) =
    Response 200 (jsonify (VObj
      {[ "_id" := VOid (new_oid 7); "a" := VInt 2; "b" := VInt 3 ]})).
Proof.
  split; [repeat split|].
  destruct (patch_merges (H := reference) plain_kule "things" (str_oid (new_oid 7))
              (new_oid 7) {[ "a" := VInt 2 ]} doc_ab patch_a2 world_ab
              eq_refl eq_refl eq_refl eq_refl eq_refl eq_refl)
    as (Hpatched & Hread & _).
  exact (conj Hpatched Hread).
Defined.

Lemma delete_idempotent_witness :
  (denied plain_kule "things" = false /\ valid_name "things" = true /\
   ObjectId (str_oid (new_oid 9)) = Some (new_oid 9)) /\
  fst (handle (delete_detail plain_kule "things" (str_oid (new_oid 9))) world_ab) =
    Response 204 Empty /\
  database (snd (handle (delete_detail plain_kule "things" (str_oid (new_oid 9)))
                   world_ab)) = database world_ab.
Proof.
  split; [repeat split|].
  destruct (delete_idempotent (H := reference) plain_kule "things"
              (str_oid (new_oid 9)) (new_oid 9) world_ab eq_refl eq_refl eq_refl)
    as (Hanswer & _ & _ & Hsame & _).
  exact (conj Hanswer (Hsame eq_refl)).
Defined.

Lemma bundler_resolution_witness :
  get_bundler widgets_kule {| name := "widgets" |} doc_ab =
    VObj (<["computed" := VBool true]> doc_ab) /\
  get_bundler widgets_kule {| name := "things" |} doc_ab = VObj doc_ab.
Proof.
  destruct (bundler_resolution (H := reference) plain_kule "widgets")
    as (_ & _ & _ & Hown & Hother & _).
  split.
  - exact (f_equal (fun f => f doc_ab) (Hown add_computed)).
  - exact (f_equal (fun f => f doc_ab)
             (Hother add_computed "things" ltac:(discriminate))).
Defined.

Lemma denied_leaves_store_witness :
  denied public_only "secret" = true /\
  Forall (fun h : M body =>
            h world_ab = (Abort 403, world_ab) /\
            fst (handle h world_ab) = error_response 403 /\
            database (snd (handle h world_ab)) = database world_ab)
    [get_list public_only "secret" bare_request;
     post_list public_only "secret" post_a1;
     get_detail public_only "secret" (str_oid (new_oid 7));
     put_detail public_only "secret" (str_oid (new_oid 7)) post_a1;
     patch_detail public_only "secret" (str_oid (new_oid 7)) post_a1;
     delete_detail public_only "secret" (str_oid (new_oid 7))].
Proof.
  split; [reflexivity|].
  pose proof (denied_leaves_store (H := reference) public_only "secret"
                (str_oid (new_oid 7)) post_a1 world_ab eq_refl) as Hall.
  apply Forall_cons in Hall as [Hgl Hall].
  apply Forall_cons. split; [split; [reflexivity | split; reflexivity]|].
  exact Hall.
Defined.

(** The reference library at work: decoding [{"a": [1, true, null]}],
    refusing a text with a trailing comma, comparing documents. *)
Example decode_json_object :
  let dq := String "034" EmptyString in
  decode_json ("{" ++ dq ++ "a" ++ dq ++ ": [1, true, null]}") =
    Some (VObj {[ "a" := VArr [VInt 1; VBool true; VNull] ]}) /\
  decode_json "[1, 2,]" = None /\
  decode_json "" = None.
Proof. repeat split. Qed.

Example value_eqb_documents :
  value_eqb (VObj doc_ab) (VObj doc_ab) = true /\
  value_eqb (VObj doc_ab) (VObj (<["b" := VInt 4]> doc_ab)) = false /\
  fields_match {[ "a" := VInt 1 ]} doc_ab = true /\
  fields_match {[ "a" := VInt 2 ]} doc_ab = false.
Proof. repeat split. Qed.

(** The route table of the class itself. *)
Example plain_routes :
  dispatch_views plain_kule =
  [Route "/:collection" GET "get_list"; Route "/:collection/:pk" GET "get_detail";
   Route "/:collection" POST "post_list";
   Route "/:collection/:pk" POST "not_implemented";
   Route "/:collection" PUT "not_implemented"; Route "/:collection/:pk" PUT "put_detail";
   Route "/:collection" PATCH "not_implemented";
   Route "/:collection/:pk" PATCH "patch_detail";
   Route "/:collection" DELETE "not_implemented";
   Route "/:collection/:pk" DELETE "delete_detail"].
Proof. reflexivity. Qed.

(** ** Further examples *)

Lemma served_statuses_witness :
  serve plain_kule DELETE Detail "things" pk_ab bare_request =
    Some (delete_detail plain_kule "things" pk_ab) /\
  In (status (fst (handle (delete_detail plain_kule "things" pk_ab) world_ab)))
     [204; 403; 500].
Proof.
  split; [reflexivity|].
  exact (proj1 (served_statuses (H := reference) plain_kule DELETE Detail "things"
                  pk_ab bare_request (delete_detail plain_kule "things" pk_ab)
                  world_ab eq_refl)).
Defined.

Lemma get_changes_nothing_witness :
  serve plain_kule GET Listing "things" "" first_one =
    Some (get_list plain_kule "things" first_one) /\
  snd (get_list plain_kule "things" first_one world_ab) = world_ab.
Proof.
  split; [reflexivity|].
  exact (proj1 (get_changes_nothing (H := reference) plain_kule Listing "things" ""
                  first_one (get_list plain_kule "things" first_one) world_ab eq_refl)).
Defined.

Lemma other_collections_untouched_witness :
  (serve plain_kule POST Listing "other" "" post_a1 =
     Some (post_list plain_kule "other" post_a1) /\
   "things" <> "other") /\
  database (snd (handle (post_list plain_kule "other" post_a1) world_ab)) !! "things" =
    Some [doc_ab].
Proof.
  split; [split; [reflexivity | discriminate]|].
  exact (other_collections_untouched (H := reference) plain_kule POST Listing "other" ""
           post_a1 (post_list plain_kule "other" post_a1) world_ab "things"
           eq_refl ltac:(discriminate)).
Defined.

Lemma put_missing_witness :
  (denied plain_kule "things" = false /\ valid_name "things" = true /\
   ObjectId pk_none = Some (new_oid 9) /\
   json put_c5 = VObj {[ "c" := VInt 5 ]} /\
   replacement {[ "c" := VInt 5 ]} && negb (storable {[ "c" := VInt 5 ]}) = false /\
   existsb (has_id (VOid (new_oid 9))) (documents world_ab {| name := "things" |})
     = false) /\
  fst (handle (put_detail plain_kule "things" pk_none put_c5) world_ab) =
    Response 202 (jsonify (VObj {[ "c" := VInt 5 ]})) /\
  database (snd (handle (put_detail plain_kule "things" pk_none put_c5) world_ab)) =
    database world_ab.
Proof.
  split; [repeat split|].
  destruct (put_missing (H := reference) plain_kule "things" pk_none (new_oid 9)
              {[ "c" := VInt 5 ]} put_c5 world_ab
              eq_refl eq_refl eq_refl eq_refl eq_refl eq_refl)
    as (Hanswer & Hsame & _).
  exact (conj Hanswer Hsame).
Defined.

Lemma put_replaces_witness :
  (denied plain_kule "things" = false /\ valid_name "things" = true /\
   ObjectId pk_ab = Some (new_oid 7) /\
   json put_c5 = VObj {[ "c" := VInt 5 ]} /\
   replacement {[ "c" := VInt 5 ]} = true /\ storable {[ "c" := VInt 5 ]} = true /\
   ({[ "c" := VInt 5 ]} : document) !! "_id" = None /\
   head (List.filter (has_id (VOid (new_oid 7)))
           (documents world_ab {| name := "things" |})) = Some doc_ab) /\
  fst (handle (put_detail plain_kule "things" pk_ab put_c5) world_ab) =
    Response 202 (jsonify (VObj {[ "c" := VInt 5 ]})) /\
  fst (handle (get_detail plain_kule "things" pk_ab)
         (snd (handle (put_detail plain_kule "things" pk_ab put_c5) world_ab))) =
    Response 200 (jsonify (VObj {[ "_id" := VOid (new_oid 7); "c" := VInt 5 ]})).
Proof.
  split; [repeat split|].
  destruct (put_replaces (H := reference) plain_kule "things" pk_ab (new_oid 7)
              {[ "c" := VInt 5 ]} doc_ab put_c5 world_ab
              eq_refl eq_refl eq_refl eq_refl eq_refl eq_refl eq_refl eq_refl)
    as (Hanswer & Hread & _).
  exact (conj Hanswer Hread).
Defined.

Lemma patch_missing_witness :
  (denied plain_kule "things" = false /\ valid_name "things" = true /\
   ObjectId pk_none = Some (new_oid 9) /\
   existsb (has_id (VOid (new_oid 9))) (documents world_ab {| name := "things" |})
     = false) /\
  fst (handle (patch_detail plain_kule "things" pk_none patch_a2) world_ab) =
    Response 404 (error "Document Not Found." 404) /\
  database (snd (handle (patch_detail plain_kule "things" pk_none patch_a2) world_ab)) =
    database world_ab.
Proof.
  split; [repeat split|].
  exact (patch_missing (H := reference) plain_kule "things" pk_none (new_oid 9)
           patch_a2 world_ab eq_refl eq_refl eq_refl eq_refl).
Defined.

Lemma delete_then_detail_witness :
  (denied plain_kule "things" = false /\ valid_name "things" = true /\
   ObjectId pk_ab = Some (new_oid 7)) /\
  fst (handle (get_detail plain_kule "things" pk_ab)
         (snd (handle (delete_detail plain_kule "things" pk_ab) world_ab))) =
    Response 404 (error "Document Not Found." 404).
Proof.
  split; [repeat split|].
  exact (proj1 (delete_then_detail (H := reference) plain_kule "things" pk_ab
                  (new_oid 7) world_ab eq_refl eq_refl eq_refl)).
Defined.

Lemma body_not_a_document_witness :
  (denied plain_kule "things" = false /\ as_document (json bare_request) = None) /\
  fst (handle (post_list plain_kule "things" bare_request) world_ab) =
    Response 500 (error "Internal Server Error." 500) /\
  database (snd (handle (post_list plain_kule "things" bare_request) world_ab)) =
    database world_ab.
Proof.
  split; [repeat split|].
  pose proof (body_not_a_document (H := reference) plain_kule "things" pk_ab
                bare_request world_ab eq_refl eq_refl
                ltac:(intros l; discriminate)) as Hall.
  apply Forall_cons in Hall as [Hpost _]. exact Hpost.
Defined.

Lemma plain_class_routes_witness :
  subclass public_only = ∅ /\
  List.length (dispatch_views public_only) = 10%nat /\
  Forall (fun r => route_path r = "/:collection" \/ route_path r = "/:collection/:pk")
    (dispatch_views public_only).
Proof.
  split; [reflexivity|].
  rewrite (plain_class_routes public_only eq_refl).
  split; [reflexivity|].
  repeat (apply Forall_cons; split; [cbn; auto|]). apply Forall_nil. exact I.
Defined.

Lemma create_then_list_witness :
  (denied plain_kule "things" = false /\ valid_name "things" = true /\
   json post_a1 = VObj {[ "a" := VInt 1 ]} /\
   ({[ "a" := VInt 1 ]} : document) !! "_id" = None /\
   storable (<["_id" := VOid (new_oid 9)]> {[ "a" := VInt 1 ]}) = true /\
   existsb (has_id (VOid (new_oid 9))) (documents world_two {| name := "things" |})
     = false /\
   requested_filter bare_request = Some ∅ /\
   requested_filter query_b3 = Some {[ "b" := VInt 3 ]} /\
   matches ∅ (<["_id" := VOid (new_oid 9)]> {[ "a" := VInt 1 ]}) = true /\
   matches {[ "b" := VInt 3 ]} (<["_id" := VOid (new_oid 9)]> {[ "a" := VInt 1 ]})
     = false) /\
  (exists before objects objects',
      fst (handle (get_list plain_kule "things" bare_request) world_two) =
      Response 200 (jsonify (VObj
        {[ "meta" := VObj {[ "limit" := VInt 20; "offset" := VInt 0;
                             "total_count" := VInt before ]};
           "objects" := VArr objects ]})) /\
      fst (handle (get_list plain_kule "things" bare_request)
             (snd (handle (post_list plain_kule "things" post_a1) world_two))) =
      Response 200 (jsonify (VObj
        {[ "meta" := VObj {[ "limit" := VInt 20; "offset" := VInt 0;
                             "total_count" := VInt (before + 1) ]};
           "objects" := VArr objects' ]}))) /\
  (exists before objects objects',
      fst (handle (get_list plain_kule "things" query_b3) world_two) =
      Response 200 (jsonify (VObj
        {[ "meta" := VObj {[ "limit" := VInt 20; "offset" := VInt 0;
                             "total_count" := VInt before ]};
           "objects" := VArr objects ]})) /\
      fst (handle (get_list plain_kule "things" query_b3)
             (snd (handle (post_list plain_kule "things" post_a1) world_two))) =
      Response 200 (jsonify (VObj
        {[ "meta" := VObj {[ "limit" := VInt 20; "offset" := VInt 0;
                             "total_count" := VInt (before + 0) ]};
           "objects" := VArr objects' ]}))).
Proof.
  split; [repeat split|]. split.
  - exact (create_then_list (H := reference) plain_kule "things" {[ "a" := VInt 1 ]} ∅
             post_a1 bare_request world_two
             eq_refl eq_refl eq_refl eq_refl eq_refl eq_refl eq_refl
             ltac:(apply Z.leb_le; reflexivity) eq_refl eq_refl).
  - exact (create_then_list (H := reference) plain_kule "things" {[ "a" := VInt 1 ]}
             {[ "b" := VInt 3 ]} post_a1 query_b3 world_two
             eq_refl eq_refl eq_refl eq_refl eq_refl eq_refl eq_refl
             ltac:(apply Z.leb_le; reflexivity) eq_refl eq_refl).
Defined.

Lemma main_whitelist_witness :
  main sample_options =
    Run "0.0.0.0" (PortText "8080") {| collections := Some ["a"; "b"]; subclass := ∅ |} /\
  exists pieces,
    collections {| collections := Some ["a"; "b"]; subclass := ∅ |} = Some pieces /\
    pieces <> [] /\ String.concat "," pieces = "a,b".
Proof.
  split; [reflexivity|].
  destruct (main_whitelist sample_options "0.0.0.0" (PortText "8080")
              {| collections := Some ["a"; "b"]; subclass := ∅ |} eq_refl)
    as (pieces & Hpieces & Hne & Hjoin & _).
  exists pieces. repeat split; assumption.
Defined.

Lemma main_address_witness :
  (main sample_options =
     Run "0.0.0.0" (PortText "8080") {| collections := Some ["a"; "b"]; subclass := ∅ |} /\
   contains ":" (or_default (address sample_options) "localhost") = true) /\
  exists t, PortText "8080" = PortText t /\
            ("0.0.0.0" ++ ":" ++ t)%string = "0.0.0.0:8080" /\
            contains ":" t = false.
Proof.
  split; [split; reflexivity|].
  exact (proj2 (main_address sample_options "0.0.0.0" (PortText "8080")
                  {| collections := Some ["a"; "b"]; subclass := ∅ |} eq_refl)
           eq_refl).
Defined.

Lemma query_not_a_filter_witness :
  (denied plain_kule "things" = false /\ valid_name "things" = true /\
   multidict_get "query" (query query_list) = Some "[1]" /\
   String.eqb "[1]" "" = false /\
   json_loads "[1]" = Some (VArr [VInt 1]) /\
   VArr [VInt 1] <> VNull /\ as_document (VArr [VInt 1]) = None) /\
  fst (handle (get_list plain_kule "things" query_list) world_ab) =
    Response 500 (error "Internal Server Error." 500).
Proof.
  split; [repeat split; discriminate|].
  exact (proj2 (query_not_a_filter (H := reference) plain_kule "things" query_list
                  "[1]" (VArr [VInt 1]) world_ab
                  eq_refl eq_refl eq_refl eq_refl eq_refl
                  ltac:(discriminate) eq_refl)).
Defined.

Lemma patch_idempotent_witness :
  (denied plain_kule "things" = false /\ valid_name "things" = true /\
   ObjectId pk_ab = Some (new_oid 7) /\
   json patch_a2 = VObj {[ "a" := VInt 2 ]} /\
   plain {[ "a" := VInt 2 ]} = true /\
   head (List.filter (has_id (VOid (new_oid 7)))
           (documents world_ab {| name := "things" |})) = Some doc_ab) /\
  handle (patch_detail plain_kule "things" pk_ab patch_a2)
    (snd (handle (patch_detail plain_kule "things" pk_ab patch_a2) world_ab)) =
  handle (patch_detail plain_kule "things" pk_ab patch_a2) world_ab.
Proof.
  split; [repeat split|].
  exact (patch_idempotent (H := reference) plain_kule "things" pk_ab (new_oid 7)
           {[ "a" := VInt 2 ]} doc_ab patch_a2 world_ab
           eq_refl eq_refl eq_refl eq_refl eq_refl eq_refl).
Defined.

Lemma put_idempotent_witness :
  (denied plain_kule "things" = false /\ valid_name "things" = true /\
   ObjectId pk_ab = Some (new_oid 7) /\
   json put_c5 = VObj {[ "c" := VInt 5 ]} /\
   replacement {[ "c" := VInt 5 ]} = true /\ storable {[ "c" := VInt 5 ]} = true /\
   ({[ "c" := VInt 5 ]} : document) !! "_id" = None) /\
  handle (put_detail plain_kule "things" pk_ab put_c5)
    (snd (handle (put_detail plain_kule "things" pk_ab put_c5) world_ab)) =
  handle (put_detail plain_kule "things" pk_ab put_c5) world_ab.
Proof.
  split; [repeat split|].
  exact (put_idempotent (H := reference) plain_kule "things" pk_ab (new_oid 7)
           {[ "c" := VInt 5 ]} put_c5 world_ab
           eq_refl eq_refl eq_refl eq_refl eq_refl eq_refl eq_refl).
Defined.
